(** * patterns.creational.builder: a verified model of the Builder registry

    The development embeds [src/patterns/creational/builder.py]: the
    [Context] record with its validators and its [resolve] / [_instance] /
    [_create] methods, and the [Builder] with [register], [resolve],
    [_resolve_alias], [_validate], [_register] and [__contains__].

    Python objects are values with an identity; the interpreter state that the
    methods thread is a [World]: the Builder's two dictionaries, the allocator
    of object identities and the trace of factory / constructor calls.
    Exceptions leave the state as it is at the raise, so a computation maps a
    world to a world and an outcome. *)

From stdpp Require Import gmap strings list fin_maps.

Open Scope string_scope.

(** ** Values *)

(** A type object is identified by its qualified name. *)
Abbreviation ty := string.

Definition DelayedCreation : ty := "DelayedCreation".

(** Python values as far as the builder looks at them: identity, class and
    truth value ([bool(x)], i.e. [__bool__] / [__len__]). *)
Inductive value : Type :=
  | VNone
  | VType (t : ty)
  | VStr (s : string)
  | VInt (z : Z)
  | VObj (id : nat) (cls : ty) (truthy : bool).

Global Instance value_eq_dec : EqDecision value.
Proof. solve_decision. Defined.

(** [bool(v)] *)
Definition truth (v : value) : bool :=
  match v with
  | VNone => false
  | VType _ => true
  | VStr s => negb (String.eqb s "")
  | VInt z => negb (Z.eqb z 0)
  | VObj _ _ b => b
  end.

(** [type(v)] *)
Definition type_of (v : value) : ty :=
  match v with
  | VNone => "NoneType"
  | VType _ => "type"
  | VStr _ => "str"
  | VInt _ => "int"
  | VObj _ cls _ => cls
  end.

(** [v is DelayedCreation] *)
Definition is_DelayedCreation (v : value) : bool :=
  bool_decide (v = VType DelayedCreation).

Abbreviation dict := (gmap string value).

(** ** Signatures and callables *)

(** [inspect.Parameter]: [param_default = None] stands for [Parameter.empty]. *)
Record Param : Type := {
  param_name : string;
  param_annotation : ty;
  param_default : option value
}.

(** A function object: what [inspect.signature] reports of it, and what a
    call of it by keyword does: given the arguments and the identity the next
    allocated object gets, it returns a value or raises ([None]). *)
Record Callable : Type := {
  qualname : string;
  parameters : list Param;
  return_annotation : ty;
  body : dict → nat → option value
}.

(** The classes of the program: the subclass relation, the signature of each
    class's [__init__] (with its [self]) and whether instantiating it by keyword raises
    ([None]) or builds a new object of that class with the given truth value. *)
Record Classes : Type := {
  issubclass : ty → ty → bool;
  init_signature : ty → list Param;
  construct : ty → dict → option bool
}.

(** ** Exceptions and outcomes *)

Inductive invalid : Type :=
  | InstanceNotOfType (v : value) (t : ty)
  | InstanceWithKwargs
  | InstanceWithFactory
  | NotASubclass (t alias : ty)
  | ReturnTypeMismatch (r t : ty).

Inductive collision : Type :=
  | TypeAlreadyRegistered (t : ty)
  | TypeRegisteredAsAlias (t : ty)
  | AliasAlreadyRegistered (alias : ty).

Inductive exn : Type :=
  | ValidationError (why : invalid)
  | RegistrationError (why : collision)
  | ResolutionError (requested : ty)
  | ConstructionFailure
  | TypeError
  | RecursionError.

Inductive outcome (A : Type) : Type :=
  | Ok (a : A)
  | Raise (e : exn).
Arguments Ok {A} a.
Arguments Raise {A} e.

(** ** The registry *)

Record Context : Type := {
  typename : ty;
  aliases : gset ty;
  kwargs : dict;
  instance : value;
  factory : option Callable
}.

(** [self.instance = v] *)
Definition set_instance (v : value) (self : Context) : Context :=
  {| typename := typename self; aliases := aliases self; kwargs := kwargs self;
     instance := v; factory := factory self |}.

Record Builder : Type := {
  _registrations : gmap ty Context;
  _aliases : gmap ty ty
}.

Inductive call : Type :=
  | CallFactory (f : string) (args : dict)
  | CallType (t : ty) (args : dict).

Record World : Type := {
  builder : Builder;
  next_id : nat;
  trace : list call
}.

Definition with_builder (b : Builder) (w : World) : World :=
  {| builder := b; next_id := next_id w; trace := trace w |}.

(** ** Computations: state that survives a raise *)

Definition M (A : Type) : Type := World → World * outcome A.

Definition ret {A} (a : A) : M A := λ w, (w, Ok a).
Definition raise {A} (e : exn) : M A := λ w, (w, Raise e).
Definition bind {A B} (c : M A) (k : A → M B) : M B :=
  λ w, match c w with
       | (w', Ok a) => k a w'
       | (w', Raise e) => (w', Raise e)
       end.
Definition lift {A} (o : outcome A) : M A := λ w, (w, o).

Notation "'let!' x ':=' c 'in' k" := (bind c (λ x, k))
  (at level 10, x name, c at level 100, k at level 200, only parsing).
Notation "c ';;' k" := (bind c (λ _, k))
  (at level 100, k at level 200, right associativity, only parsing).

(** Python binds the keywords of a call to the parameters of the callee.
    The methods of Context are declared with the parameters [self] and
    [builder] before their keywords, and [Builder.resolve] passes its
    builder by position: a keyword named [builder] among the call arguments
    names that parameter a second time, and the call raises [TypeError]
    before the method runs. (Within the Context methods the keywords go on
    unchanged to methods of the same parameters, no further clash arises.) *)
Definition clashes (call_kwargs : dict) : bool :=
  bool_decide (is_Some (call_kwargs !! "builder")).

Definition call_method {A} (call_kwargs : dict) (method : dict → M A) : M A :=
  if clashes call_kwargs then raise TypeError else method call_kwargs.

(** ** Context: validation *)

(** [isinstance(v, t)] *)
Definition isinstance (E : Classes) (v : value) (t : ty) : bool :=
  issubclass E (type_of v) t.

Section Classes.

Variable E : Classes.

Definition _validate_instance (self : Context) : outcome Context :=
  let self :=
    if isinstance E (instance self) DelayedCreation
    then set_instance (VType DelayedCreation) self
    else self in
  if truth (instance self) && negb (is_DelayedCreation (instance self)) then
    if negb (isinstance E (instance self) (typename self)) then
      Raise (ValidationError (InstanceNotOfType (instance self) (typename self)))
    else if negb (bool_decide (kwargs self = ∅)) then
      Raise (ValidationError InstanceWithKwargs)
    else if bool_decide (is_Some (factory self)) then
      Raise (ValidationError InstanceWithFactory)
    else Ok self
  else Ok self.

(** The loop over [self.aliases]. *)
Fixpoint check_aliases (t : ty) (todo : list ty) : outcome unit :=
  match todo with
  | [] => Ok tt
  | alias :: todo' =>
      if negb (issubclass E t alias)
      then Raise (ValidationError (NotASubclass t alias))
      else check_aliases t todo'
  end.

Definition _validate_aliases (self : Context) : outcome Context :=
  match check_aliases (typename self) (elements (aliases self)) with
  | Ok _ => Ok self
  | Raise e => Raise e
  end.

Definition _validate_factory (self : Context) : outcome Context :=
  match factory self with
  | Some f =>
      if negb (String.eqb (return_annotation f) (typename self))
      then Raise (ValidationError (ReturnTypeMismatch (return_annotation f) (typename self)))
      else Ok self
  | None => Ok self
  end.

Definition validate_model (self : Context) : outcome Context :=
  match _validate_instance self with
  | Raise e => Raise e
  | Ok self =>
      match _validate_aliases self with
      | Raise e => Raise e
      | Ok self => _validate_factory self
      end
  end.

(** [Context(typename=..., aliases=..., instance=..., factory=..., kwargs=...)] *)
Definition new_Context (t : ty) (als : gset ty) (inst : value)
    (fac : option Callable) (kw : dict) : outcome Context :=
  validate_model
    {| typename := t; aliases := als; kwargs := kw; instance := inst; factory := fac |}.

(** ** Context: construction *)

(** Calling the factory: the call is traced, one identity is consumed. *)
Definition call_factory (f : Callable) (args : dict) : M value :=
  λ w,
    let w' := {| builder := builder w; next_id := S (next_id w);
                 trace := trace w ++ [CallFactory (qualname f) args] |} in
    match body f args (next_id w) with
    | Some v => (w', Ok v)
    | None => (w', Raise ConstructionFailure)
    end.

(** Instantiating the class: a new object of that class, or the
    constructor's exception. *)
Definition call_type (t : ty) (args : dict) : M value :=
  λ w,
    let w' := {| builder := builder w; next_id := S (next_id w);
                 trace := trace w ++ [CallType t args] |} in
    match construct E t args with
    | Some b => (w', Ok (VObj (next_id w) t b))
    | None => (w', Raise ConstructionFailure)
    end.

Definition excluded_params : list string := ["self"; "args"; "kwargs"].

Definition trimmed_params (sig : list Param) : list Param :=
  filter (λ p, param_name p ∉ excluded_params) sig.

(** [inspect.signature(self.factory or self.typename.__init__)] *)
Definition signature_of (self : Context) : list Param :=
  match factory self with
  | Some f => parameters f
  | None => init_signature E (typename self)
  end.

Section ContextMethods.

(** The builder handed to the Context methods, as its [resolve]. *)
Variable builder_resolve : ty → dict → M value.

(** The body of the loop over the trimmed signature. *)
Definition resolve_param (self : Context) (call_kwargs : dict) (param : Param) : M value :=
  match call_kwargs !! param_name param with
  | Some v => ret v
  | None =>
      match kwargs self !! param_name param with
      | Some v => ret v
      | None =>
          match param_default param with
          | Some v => ret v
          | None => builder_resolve (param_annotation param) ∅
          end
      end
  end.

Fixpoint resolve_params (self : Context) (call_kwargs : dict)
    (params : list Param) (resolved_kwargs : dict) : M dict :=
  match params with
  | [] => ret resolved_kwargs
  | param :: params' =>
      let! v := resolve_param self call_kwargs param in
      resolve_params self call_kwargs params' (<[param_name param := v]> resolved_kwargs)
  end.

Definition Context__create (self : Context) (call_kwargs : dict) : M value :=
  let! resolved_kwargs :=
    resolve_params self call_kwargs (trimmed_params (signature_of self)) (kwargs self) in
  match factory self with
  | Some f => call_factory f resolved_kwargs
  | None => call_type (typename self) resolved_kwargs
  end.

(** [self] is the Context object stored in the registry under [slot]; the
    assignment to [self.instance] is an update of that stored object. *)
Definition store_instance (slot : ty) (v : value) : M unit :=
  λ w,
    (with_builder
       {| _registrations := alter (set_instance v) slot (_registrations (builder w));
          _aliases := _aliases (builder w) |} w,
     Ok tt).

Definition Context__instance (slot : ty) (self : Context) (call_kwargs : dict) : M value :=
  if is_DelayedCreation (instance self) then
    let! v := Context__create self call_kwargs in
    store_instance slot v ;;
    ret v
  else ret (instance self).

Definition Context_resolve (slot : ty) (self : Context) (call_kwargs : dict) : M value :=
  let! v := Context__instance slot self call_kwargs in
  if truth v then ret v else Context__create self call_kwargs.

End ContextMethods.

(** ** Builder *)

Definition Builder__init__ : Builder :=
  {| _registrations := ∅; _aliases := ∅ |}.

(** The loop of [_validate] over [context.aliases]. *)
Fixpoint check_free (b : Builder) (todo : list ty) : outcome unit :=
  match todo with
  | [] => Ok tt
  | alias :: todo' =>
      if bool_decide (is_Some (_aliases b !! alias))
         || bool_decide (is_Some (_registrations b !! alias))
      then Raise (RegistrationError (AliasAlreadyRegistered alias))
      else check_free b todo'
  end.

Definition _validate (context : Context) : M unit :=
  λ w,
    let b := builder w in
    if bool_decide (is_Some (_registrations b !! typename context)) then
      (w, Raise (RegistrationError (TypeAlreadyRegistered (typename context))))
    else if bool_decide (is_Some (_aliases b !! typename context)) then
      (w, Raise (RegistrationError (TypeRegisteredAsAlias (typename context))))
    else (w, check_free b (elements (aliases context))).

(** The loop of [_register] over [context.aliases]. *)
Fixpoint record_aliases (t : ty) (todo : list ty) (als : gmap ty ty) : gmap ty ty :=
  match todo with
  | [] => als
  | alias :: todo' => record_aliases t todo' (<[alias := t]> als)
  end.

Definition _register (context : Context) : M unit :=
  λ w,
    let b := builder w in
    let b1 := {| _registrations := <[typename context := context]> (_registrations b);
                 _aliases := _aliases b |} in
    let b2 := {| _registrations := _registrations b1;
                 _aliases := record_aliases (typename context)
                               (elements (aliases context)) (_aliases b1) |} in
    (with_builder b2 w, Ok tt).

(** [{alias} if alias else set()] *)
Definition alias_set (alias : option ty) : gset ty :=
  match alias with Some a => {[a]} | None => ∅ end.

Definition register (cls : ty) (alias : option ty) (inst : value)
    (fac : option Callable) (kw : dict) : M unit :=
  let! context := lift (new_Context cls (alias_set alias) inst fac kw) in
  _validate context ;;
  _register context.

Fixpoint _resolve_alias (fuel : nat) (b : Builder) (alias : ty) : option ty :=
  match fuel with
  | 0 => None
  | S fuel' =>
      match _aliases b !! alias with
      | Some t => _resolve_alias fuel' b t
      | None => Some alias
      end
  end.

(** [fuel] bounds the depth of the Python call stack; running out of it is
    the interpreter's [RecursionError]. *)
Fixpoint Builder_resolve (fuel : nat) (cls : ty) (call_kwargs : dict) : M value :=
  match fuel with
  | 0 => raise RecursionError
  | S fuel' =>
      λ w,
        match _resolve_alias fuel (builder w) cls with
        | None => (w, Raise RecursionError)
        | Some resolved_type =>
            match _registrations (builder w) !! resolved_type with
            | None => (w, Raise (ResolutionError cls))
            | Some context =>
                call_method call_kwargs
                  (Context_resolve (Builder_resolve fuel') resolved_type context) w
            end
        end
  end.

Definition Builder__contains__ (cls : ty) : M bool :=
  λ w,
    (w, Ok (bool_decide (is_Some (_registrations (builder w) !! cls))
            || bool_decide (is_Some (_aliases (builder w) !! cls)))).

End Classes.

(** ** The classes of the test suite

    [tests/creational/test_builder.py] declares [Spice] and its subclasses.
    [Basket] is a container class beside them, with [__init__(self)] and a
    [__len__]: a new basket is empty, hence false. *)
Module Kitchen.

Definition P (n : string) (t : ty) (d : option value) : Param :=
  {| param_name := n; param_annotation := t; param_default := d |}.

Definition self : Param := P "self" "_empty" None.

Definition spices : list ty :=
  ["Spice"; "Salt"; "Pepper"; "Chili"; "Herb"; "SaltySpiceMix"].

Definition subclass_of (t u : ty) : bool :=
  String.eqb t u || String.eqb u "object"
  || (String.eqb u "Spice" && bool_decide (t ∈ spices)).

Definition init_of (t : ty) : list Param :=
  if String.eqb t "Spice" then [self; P "name" "str" None]
  else if String.eqb t "Herb" then [self; P "name" "str" None]
  else if String.eqb t "Chili" then [self; P "variety" "str" (Some (VStr "jalapeno"))]
  else if String.eqb t "SaltySpiceMix" then [self; P "salt" "Salt" None; P "spice" "Spice" None]
  else if String.eqb t "Salt" then [self]
  else if String.eqb t "Pepper" then [self]
  else if String.eqb t "Basket" then [self]
  else [self; P "args" "_empty" None; P "kwargs" "_empty" None].

(** Python's binding of keyword arguments to a signature: every parameter
    without a default is given, and nothing else is. *)
Definition binds (sig : list Param) (args : dict) : bool :=
  forallb (λ p, bool_decide (is_Some (args !! param_name p))
                || bool_decide (is_Some (param_default p))) sig
  && bool_decide (dom args ⊆ list_to_set (param_name <$> sig)).

Definition instantiate (t : ty) (args : dict) : option bool :=
  if String.eqb t "Basket" then (if bool_decide (args = ∅) then Some false else None)
  else if bool_decide (t ∈ spices) then
    (if binds (tail (init_of t)) args then Some true else None)
  else None.

Definition classes : Classes :=
  {| issubclass := subclass_of;
     init_signature := init_of;
     construct := instantiate |}.

(** [def spice_factory(name: str = "cinnamon") -> Spice] *)
Definition spice_factory : Callable :=
  {| qualname := "spice_factory";
     parameters := [P "name" "str" (Some (VStr "cinnamon"))];
     return_annotation := "Spice";
     body := λ args id,
       if binds [P "name" "str" (Some (VStr "cinnamon"))] args
       then Some (VObj id "Spice" true) else None |}.

(** [def make_basket() -> Basket: return Basket()] *)
Definition make_basket : Callable :=
  {| qualname := "make_basket";
     parameters := [];
     return_annotation := "Basket";
     body := λ args id, if bool_decide (args = ∅) then Some (VObj id "Basket" false) else None |}.

(** A new Builder, in a program that has allocated [n] objects so far. *)
Definition new_world (n : nat) : World :=
  {| builder := Builder__init__; next_id := n; trace := [] |}.

Definition fresh : World := new_world 0.

(** The empty basket the caller built first, and a Context that holds it. *)
Definition empty_basket : value := VObj 0 "Basket" false.

Definition basket_context (inst : value) (fac : option Callable) : Context :=
  {| typename := "Basket"; aliases := ∅; kwargs := ∅; instance := inst; factory := fac |}.

(** The state after [builder.register(Spice, alias=Spice)]. *)
Definition self_aliased : World :=
  fst (register classes "Spice" (Some "Spice") VNone None ∅ fresh).

(** The state after [builder.register(Basket, instance=basket)], [basket]
    the empty basket above. *)
Definition with_empty_basket : World :=
  fst (register classes "Basket" None empty_basket None ∅ (new_world 1)).

(** The state after [builder.register(Basket, instance=DelayedCreation,
    factory=make_basket)]. *)
Definition with_deferred_basket : World :=
  fst (register classes "Basket" None (VType DelayedCreation) (Some make_basket) ∅ fresh).

(** The state after [builder.register(Spice)]. *)
Definition with_spice : World :=
  fst (register classes "Spice" None VNone None ∅ fresh).

(** The state after [builder.register(Herb, alias=Spice, name="cumin")]. *)
Definition with_herb : World :=
  fst (register classes "Herb" (Some "Spice") VNone None {["name" := VStr "cumin"]} fresh).

(** The state after [builder.register(Salt)], [builder.register(Pepper,
    alias=Spice)] and [builder.register(SaltySpiceMix)]. *)
Definition pantry : World :=
  fst (register classes "SaltySpiceMix" None VNone None ∅
    (fst (register classes "Pepper" (Some "Spice") VNone None ∅
      (fst (register classes "Salt" None VNone None ∅ (new_world 1)))))).

(** The Context of [SaltySpiceMix] in [pantry], and the spice the caller
    passes to [resolve]. *)
Definition mix_context : Context :=
  {| typename := "SaltySpiceMix"; aliases := ∅; kwargs := ∅;
     instance := VNone; factory := None |}.

Definition cumin : value := VObj 0 "Spice" true.

(** One statement after another, stopping at the first exception. *)
Definition after {A B} (c : M A) (k : M B) : M B := bind c (λ _, k).

(** The state after [builder.register(Salt)], and the Context it stores. *)
Definition with_salt : World :=
  fst (register classes "Salt" None VNone None ∅ fresh).


(** The state after [builder.register(Salt)] and
    [builder.register(SaltySpiceMix)]: no Spice is registered. *)
Definition no_spice : World :=
  fst (register classes "SaltySpiceMix" None VNone None ∅ with_salt).




(** The Context of [Herb] in [with_herb] and the Context of a plain
    [Chili] registration. *)
Definition herb_context : Context :=
  {| typename := "Herb"; aliases := {["Spice"]}; kwargs := {["name" := VStr "cumin"]};
     instance := VNone; factory := None |}.

Definition chili_context : Context :=
  {| typename := "Chili"; aliases := ∅; kwargs := ∅; instance := VNone; factory := None |}.

End Kitchen.

(** * examples/structural/repository.py

    The repository of Items over a database session. The session belongs to
    the ORM library; of it the model takes the answer of
    [self._session.query(DbItem).get(key)] in the session's present state,
    and the request [self._session.delete] receives. *)
Module Store.

Abbreviation UUID := N.

(** The frozen dataclass [Item]: compared by value, always true. *)
Record Item : Type := { name : string; uuid : UUID }.

(** The columns of the mapped class [DbItem]. *)
Record DbItem : Type := { db_uuid : UUID; db_name : string }.

Definition from_domain (item : Item) : DbItem :=
  {| db_uuid := uuid item; db_name := name item |}.

Definition to_domain (self : DbItem) : Item :=
  {| name := db_name self; uuid := db_uuid self |}.

Inductive looked_up (A : Type) : Type :=
  | Found (a : A)
  | KeyError (key : UUID).
Arguments Found {A} a.
Arguments KeyError {A} key.

Section Repository.

Variable query_get : UUID → option DbItem.

Definition Repository_get (key : UUID) (default : option Item) : option Item :=
  match query_get key with
  | Some found => Some (to_domain found)
  | None => default
  end.

Definition Repository__getitem__ (key : UUID) : looked_up Item :=
  match Repository_get key None with
  | Some found => Found found
  | None => KeyError key
  end.

(** The key is a UUID or an Item, of which the UUID is taken. *)
Definition Repository__contains__ (key : UUID + Item) : bool :=
  let key := match key with inl k => k | inr item => uuid item end in
  match Repository_get key None with
  | Some _ => true
  | None => false
  end.

(** The Item handed to [self._session.delete], or the [KeyError] raised
    before the session is reached. *)
Definition Repository__delitem__ (key : UUID) : looked_up Item :=
  match Repository__getitem__ key with
  | Found item => Found item
  | KeyError k => KeyError k
  end.

End Repository.

End Store.

(** ** The alias chain, relationally *)

(** [alias_root b x k]: following [_aliases] from [x] ends at [k], a key that
    is not an alias. *)
Inductive alias_root (b : Builder) : ty → ty → Prop :=
  | root_here x : _aliases b !! x = None → alias_root b x x
  | root_next x y k : _aliases b !! x = Some y → alias_root b y k → alias_root b x k.

(** States reached from a new Builder by [register] calls, whatever their
    outcome. *)
Inductive reachable (E : Classes) : World → Prop :=
  | reach_new w : builder w = Builder__init__ → reachable E w
  | reach_register w cls alias inst fac kw :
      reachable E w → reachable E (fst (register E cls alias inst fac kw w)).

(** States reached by successful [register] calls only. *)
Inductive reachable_ok (E : Classes) : World → Prop :=
  | reach_ok_new w : builder w = Builder__init__ → reachable_ok E w
  | reach_ok_register w w' cls alias inst fac kw :
      reachable_ok E w →
      register E cls alias inst fac kw w = (w', Ok tt) →
      reachable_ok E w'.

(** A key is taken when it is a registered type or an alias. *)
Definition taken (b : Builder) (k : ty) : Prop :=
  is_Some (_registrations b !! k) ∨ is_Some (_aliases b !! k).

(** The number of calls of the factory named [f] in a trace. *)
Fixpoint factory_calls (f : string) (tr : list call) : nat :=
  match tr with
  | [] => 0
  | CallFactory g _ :: tr' => (if String.eqb f g then 1 else 0) + factory_calls f tr'
  | CallType _ _ :: tr' => factory_calls f tr'
  end.

(** The precedence of the build step, in the words of the specification:
    the call-time argument, else the registration-time argument, else the
    declared default, else what the builder resolves for the annotation,
    asked in the state [w] the build has reached. *)
Definition by_precedence (builder_resolve : ty → dict → M value)
    (self : Context) (call_kwargs : dict) (param : Param) (w : World) (v : value) : Prop :=
  match call_kwargs !! param_name param with
  | Some v' => v = v'
  | None =>
      match kwargs self !! param_name param with
      | Some v' => v = v'
      | None =>
          match param_default param with
          | Some v' => v = v'
          | None => ∃ w', builder_resolve (param_annotation param) ∅ w = (w', Ok v)
          end
      end
  end.

(** The value a parameter gets without asking the builder, if any. *)
Definition supplied (self : Context) (call_kwargs : dict) (param : Param) : option value :=
  match call_kwargs !! param_name param with
  | Some v => Some v
  | None =>
      match kwargs self !! param_name param with
      | Some v => Some v
      | None => param_default param
      end
  end.

(** The callable the build step invokes: the factory, else the class. *)
Definition invoke (E : Classes) (self : Context) (args : dict) : M value :=
  match factory self with
  | Some f => call_factory f args
  | None => call_type E (typename self) args
  end.

(** Every alias points at a registered type. *)
Definition alias_targets_registered (b : Builder) : Prop :=
  ∀ a t, _aliases b !! a = Some t → is_Some (_registrations b !! t).

(** An alias key is a registered type only when it aliases itself. *)
Definition overlap_is_self_alias (b : Builder) : Prop :=
  ∀ a t, _aliases b !! a = Some t → is_Some (_registrations b !! a) → t = a.

(** [register] takes one alias at most, so a type has one alias at most. *)
Definition alias_unique (b : Builder) : Prop :=
  ∀ a a' t, _aliases b !! a = Some t → _aliases b !! a' = Some t → a = a'.

Definition registry_invariant (b : Builder) : Prop :=
  alias_targets_registered b ∧ overlap_is_self_alias b ∧ alias_unique b.

(** Two registries with the same aliases and, key by key, the same
    Contexts up to their [instance] slot. *)
Definition same_recipe (c c' : Context) : Prop :=
  typename c' = typename c ∧ aliases c' = aliases c ∧
  kwargs c' = kwargs c ∧ factory c' = factory c.

Definition same_shape (b b' : Builder) : Prop :=
  _aliases b' = _aliases b ∧
  ∀ k, match _registrations b !! k, _registrations b' !! k with
       | Some c, Some c' => same_recipe c c'
       | None, None => True
       | _, _ => False
       end.

(** A computation that changes nothing of the registry but [instance] slots. *)
Definition keeps_shape {A} (c : M A) : Prop :=
  ∀ w, same_shape (builder w) (builder (fst (c w))).

(** [c'] does what [c] does wherever [c] does not run out of stack. *)
Definition extends {A} (c c' : M A) : Prop :=
  ∀ w, snd (c w) ≠ Raise RecursionError → c' w = c w.

(** States reached from a new Builder by [register] and [resolve] calls,
    whatever their outcome. *)
Inductive live (E : Classes) : World → Prop :=
  | live_new w : builder w = Builder__init__ → live E w
  | live_register w cls alias inst fac kw :
      live E w → live E (fst (register E cls alias inst fac kw w))
  | live_resolve w fuel cls kw :
      live E w → live E (fst (Builder_resolve E fuel cls kw w)).

(** From [w] to [w'] no identity is handed out twice and no registration
    whose instance slot is not the deferred-creation marker is touched. *)
Definition keeps_settled (w w' : World) : Prop :=
  (next_id w ≤ next_id w')%nat ∧
  ∀ k c, _registrations (builder w) !! k = Some c →
         is_DelayedCreation (instance c) = false →
         _registrations (builder w') !! k = Some c.

(** ** Membership of any object

    [x in builder] takes any Python object. Each of the two dictionary
    lookups hashes the key first: an object whose class leaves it without
    [__hash__] (a list, or a class whose metaclass does so) raises
    [TypeError] there. A key that hashes is a type, looked up by its name;
    [Builder__contains__] above is the test on such a key. *)
Inductive pykey : Type :=
  | Hashable (t : ty)
  | Unhashable.

(** [key in d] for a dictionary keyed by types *)
Definition dict_contains {V} (d : gmap ty V) (key : pykey) : outcome bool :=
  match key with
  | Hashable t => Ok (bool_decide (is_Some (d !! t)))
  | Unhashable => Raise TypeError
  end.

Definition Builder__contains__key (cls : pykey) : M bool :=
  λ w,
    match dict_contains (_registrations (builder w)) cls with
    | Raise e => (w, Raise e)
    | Ok true => (w, Ok true)
    | Ok false => (w, dict_contains (_aliases (builder w)) cls)
    end.

(** * Properties *)

(** ** Alias resolution *)

Lemma _resolve_alias_mono fuel fuel' b x k :
  _resolve_alias fuel b x = Some k → (fuel ≤ fuel')%nat → _resolve_alias fuel' b x = Some k.
Proof.
  revert fuel' x. induction fuel as [|n IH]; intros [|m] x H Hle; simpl in *; try done; try lia.
  destruct (_aliases b !! x) as [t|]; [|done].
  apply IH; [done | lia].
Qed.

Lemma _resolve_alias_root fuel b x k :
  _resolve_alias fuel b x = Some k → alias_root b x k.
Proof.
  revert x. induction fuel as [|n IH]; intros x H; simpl in H; [done|].
  destruct (_aliases b !! x) as [t|] eqn:Hx.
  - eapply root_next; eauto.
  - injection H as <-. by apply root_here.
Qed.

Lemma alias_root_resolves b x k :
  alias_root b x k → ∃ fuel, _resolve_alias fuel b x = Some k.
Proof.
  induction 1 as [x Hx | x y k Hx _ [n IH]].
  - exists 1. simpl. by rewrite Hx.
  - exists (S n). simpl. by rewrite Hx.
Qed.


Lemma alias_root_not_alias b x k : alias_root b x k → _aliases b !! k = None.
Proof. induction 1; auto. Qed.


(** A key that is not an alias is its own root. *)
Lemma _resolve_alias_absent fuel b x :
  _aliases b !! x = None → _resolve_alias (S fuel) b x = Some x.
Proof. intros H. simpl. by rewrite H. Qed.

(** ** Builder.resolve *)

(** One frame of [Builder.resolve]. *)
Lemma Builder_resolve_S (E : Classes) fuel cls kw w :
  Builder_resolve E (S fuel) cls kw w =
    match _resolve_alias (S fuel) (builder w) cls with
    | None => (w, Raise RecursionError)
    | Some resolved_type =>
        match _registrations (builder w) !! resolved_type with
        | None => (w, Raise (ResolutionError cls))
        | Some context =>
            call_method kw
              (Context_resolve E (Builder_resolve E fuel) resolved_type context) w
        end
    end.
Proof. reflexivity. Qed.

(** C6. [Builder.resolve(cls, **kwargs)] first follows the alias map from
    [cls] (a key that is not an alias is its own root); when the root [k] has
    no entry in [_registrations] the call raises [ResolutionError] naming
    [cls] and changes nothing, otherwise it is the call of [resolve] on the
    Context stored under [k], with this Builder and the same call arguments
    as keywords. *)
Theorem Builder_resolve_dispatch (E : Classes) (w : World) (cls k : ty) (kw : dict) :
  alias_root (builder w) cls k →
  (_aliases (builder w) !! cls = None → k = cls) ∧
  ∃ fuel0, ∀ fuel, (fuel0 ≤ fuel)%nat →
    Builder_resolve E (S fuel) cls kw w =
      match _registrations (builder w) !! k with
      | None => (w, Raise (ResolutionError cls))
      | Some context =>
          call_method kw (Context_resolve E (Builder_resolve E fuel) k context) w
      end.
Proof.
  intros Hroot. split.
  - intros Hnone. inversion Hroot; subst; [done | congruence].
  - destruct (alias_root_resolves _ _ _ Hroot) as [n Hn].
    exists n. intros fuel Hle.
    assert (_resolve_alias (S fuel) (builder w) cls = Some k) as Hk.
    { eapply _resolve_alias_mono; [exact Hn | lia]. }
    rewrite Builder_resolve_S.
    by rewrite Hk.
Qed.

(** ** Membership *)

(** C8 (as amended). [cls in builder] never changes the state. For a key
    that hashes it raises nothing, is the test [Builder__contains__] on that
    type, and answers true exactly when the key is a key of
    [_registrations] or a key of [_aliases]; for a key that does not hash it
    raises [TypeError]. *)
Theorem Builder_contains_key_spec (w : World) (cls : pykey) :
  match cls with
  | Hashable t =>
      ∃ r : bool,
        Builder__contains__key cls w = (w, Ok r) ∧
        Builder__contains__ t w = (w, Ok r) ∧
        (r = true ↔ is_Some (_registrations (builder w) !! t)
                   ∨ is_Some (_aliases (builder w) !! t))
  | Unhashable => Builder__contains__key cls w = (w, Raise TypeError)
  end.
Proof.
  destruct cls as [t|]; [|reflexivity].
  unfold Builder__contains__key, Builder__contains__, dict_contains.
  destruct (bool_decide (is_Some (_registrations (builder w) !! t))) eqn:Hreg.
  - exists true. split; [reflexivity|]. split; [reflexivity|].
    split; [|done]. intros _. left. by apply bool_decide_eq_true in Hreg.
  - exists (bool_decide (is_Some (_aliases (builder w) !! t))).
    split; [reflexivity|]. split; [reflexivity|].
    apply bool_decide_eq_false in Hreg. rewrite bool_decide_eq_true. tauto.
Qed.

(** ** The build step *)

Section Build.

Variable E : Classes.
Variable builder_resolve : ty → dict → M value.

Lemma bind_Ok {A B} (c : M A) (k : A → M B) w w' b :
  bind c k w = (w', Ok b) → ∃ w1 a, c w = (w1, Ok a) ∧ k a w1 = (w', Ok b).
Proof.
  unfold bind. destruct (c w) as [w1 [a|e]]; [eauto | discriminate].
Qed.

Lemma resolve_param_precedence self kw param w w' v :
  resolve_param builder_resolve self kw param w = (w', Ok v) →
  by_precedence builder_resolve self kw param w v.
Proof.
  unfold resolve_param, by_precedence, ret.
  destruct (kw !! param_name param); [congruence|].
  destruct (kwargs self !! param_name param); [congruence|].
  destruct (param_default param); [congruence|]. eauto.
Qed.

Lemma resolve_params_keeps self kw params :
  ∀ acc w w' resolved,
    resolve_params builder_resolve self kw params acc w = (w', Ok resolved) →
    ∀ key, key ∉ param_name <$> params → resolved !! key = acc !! key.
Proof.
  induction params as [|p ps IH]; intros acc w w' resolved Hrun key Hkey; simpl in *.
  - by injection Hrun as <- <-.
  - apply bind_Ok in Hrun as (w1 & v & _ & Hrest).
    apply not_elem_of_cons in Hkey as [Hne Hkey].
    rewrite (IH _ _ _ _ Hrest key Hkey). by rewrite lookup_insert_ne.
Qed.

(** Each parameter is resolved in the state left by the parameters before
    it, and later parameters do not touch its value. *)
Lemma resolve_params_spec self kw params :
  ∀ acc w w' resolved,
    NoDup (param_name <$> params) →
    resolve_params builder_resolve self kw params acc w = (w', Ok resolved) →
    ∀ before param after, params = (before ++ param :: after)%list →
      ∃ wa acca v,
        resolve_params builder_resolve self kw before acc w = (wa, Ok acca) ∧
        resolved !! param_name param = Some v ∧
        by_precedence builder_resolve self kw param wa v.
Proof.
  induction params as [|p ps IH]; intros acc w w' resolved Hnd Hrun before param after Heq.
  - by destruct before.
  - simpl in Hrun, Hnd. apply bind_Ok in Hrun as (w1 & v & Hp & Hrest).
    apply NoDup_cons in Hnd as [Hfresh Hnd].
    destruct before as [|q before]; simpl in Heq; injection Heq as -> ->.
    + exists w, acc, v. split; [done|]. split; [|by eapply resolve_param_precedence].
      rewrite (resolve_params_keeps _ _ _ _ _ _ _ Hrest _ Hfresh).
      by rewrite lookup_insert_eq.
    + destruct (IH _ _ _ _ Hnd Hrest before param after eq_refl)
        as (wa & acca & v' & Hbefore & Hval & Hprec).
      exists wa, acca, v'. split; [|done].
      simpl. unfold bind. by rewrite Hp.
Qed.

Lemma resolve_params_supplied self kw params :
  ∀ acc w,
    (∀ param, param ∈ params → is_Some (supplied self kw param)) →
    ∃ resolved,
      resolve_params builder_resolve self kw params acc w = (w, Ok resolved).
Proof.
  induction params as [|p ps IH]; intros acc w Hall; simpl; [by eexists|].
  destruct (Hall p) as [v Hv]; [by left|].
  assert (resolve_param builder_resolve self kw p w = (w, Ok v)) as Hp.
  { unfold resolve_param, supplied, ret in *. repeat case_match; congruence. }
  destruct (IH (<[param_name p := v]> acc) w) as [resolved Hrest].
  { intros q Hq. apply Hall. by right. }
  exists resolved. unfold bind. by rewrite Hp.
Qed.


Lemma trimmed_params_NoDup sig :
  NoDup (param_name <$> sig) → NoDup (param_name <$> trimmed_params sig).
Proof.
  unfold trimmed_params. induction sig as [|p ps IH]; simpl; [done|].
  rewrite NoDup_cons. intros [Hp Hps].
  rewrite filter_cons. destruct (decide _); [|by apply IH].
  simpl. apply NoDup_cons. split; [|by apply IH].
  intros Hin. apply Hp. apply list_elem_of_fmap in Hin as (q & -> & Hq).
  apply list_elem_of_fmap. exists q. split; [done|].
  apply list_elem_of_filter in Hq. tauto.
Qed.

(** When no parameter needs the builder, the build step reaches the call
    of the factory or class, in the state it started from. *)
Lemma Context_create_supplied (self : Context) (kw : dict) (w : World) :
  (∀ param, param ∈ trimmed_params (signature_of E self) →
            is_Some (supplied self kw param)) →
  ∃ resolved, Context__create E builder_resolve self kw w = invoke E self resolved w.
Proof.
  intros Hall. unfold Context__create, bind.
  destruct (resolve_params_supplied self kw _ (kwargs self) w Hall) as [resolved ->].
  by exists resolved.
Qed.


End Build.

(** ** Registration *)

Section Registration.

Variable E : Classes.

Lemma _validate_instance_fields self self' :
  _validate_instance E self = Ok self' →
  typename self' = typename self ∧ aliases self' = aliases self ∧
  kwargs self' = kwargs self ∧ factory self' = factory self.
Proof.
  unfold _validate_instance.
  destruct (isinstance E (instance self) DelayedCreation); simpl;
    repeat (case_match; try discriminate); intros [= <-]; done.
Qed.

Lemma new_Context_fields t als inst fac kw context :
  new_Context E t als inst fac kw = Ok context →
  typename context = t ∧ aliases context = als ∧
  kwargs context = kw ∧ factory context = fac.
Proof.
  unfold new_Context, validate_model. intros H.
  destruct (_validate_instance E _) as [c1|] eqn:H1; [|discriminate].
  apply _validate_instance_fields in H1. simpl in H1.
  unfold _validate_aliases in H.
  destruct (check_aliases E (typename c1) _); [|discriminate].
  unfold _validate_factory in H.
  destruct (factory c1) as [f|] eqn:Hf.
  - destruct (negb _); [discriminate|]. injection H as <-. rewrite Hf. naive_solver.
  - injection H as <-. rewrite Hf. naive_solver.
Qed.

Lemma _validate_state context w : fst (_validate context w) = w.
Proof. unfold _validate. repeat case_match; done. Qed.

Lemma check_free_Ok b todo :
  check_free b todo = Ok tt ↔ ∀ a, a ∈ todo → ¬ taken b a.
Proof.
  induction todo as [|a todo IH]; simpl.
  - split; [intros _ a Ha; inversion Ha | done].
  - destruct (bool_decide (is_Some (_aliases b !! a))
              || bool_decide (is_Some (_registrations b !! a))) eqn:Hb.
    + split; [discriminate|]. intros H. exfalso. apply (H a); [left|].
      apply orb_true_iff in Hb. rewrite !bool_decide_eq_true in Hb.
      unfold taken. tauto.
    + rewrite IH. apply orb_false_iff in Hb. rewrite !bool_decide_eq_false in Hb.
      split.
      * intros H x Hx. apply elem_of_cons in Hx as [-> | Hx]; [|by apply H].
        unfold taken. tauto.
      * intros H x Hx. apply H. by right.
Qed.

Lemma check_free_Raise b todo e :
  check_free b todo = Raise e → ∃ a, e = RegistrationError (AliasAlreadyRegistered a).
Proof.
  induction todo as [|a todo IH]; simpl; [discriminate|].
  case_match; [intros [= <-]; eauto | done].
Qed.

Lemma _validate_Ok context w :
  snd (_validate context w) = Ok tt ↔
  ¬ taken (builder w) (typename context) ∧
  ∀ a, a ∈ aliases context → ¬ taken (builder w) a.
Proof.
  unfold _validate, taken.
  destruct (bool_decide _) eqn:H1; simpl.
  { apply bool_decide_eq_true in H1. split; [discriminate | tauto]. }
  destruct (bool_decide (is_Some (_aliases _ !! _))) eqn:H2; simpl.
  { apply bool_decide_eq_true in H2. split; [discriminate | tauto]. }
  apply bool_decide_eq_false in H1, H2.
  rewrite check_free_Ok. setoid_rewrite elem_of_elements. unfold taken. tauto.
Qed.

Lemma _validate_Raise context w e :
  snd (_validate context w) = Raise e → ∃ why, e = RegistrationError why.
Proof.
  unfold _validate.
  destruct (bool_decide _); simpl; [intros [= <-]; eauto|].
  destruct (bool_decide _); simpl; [intros [= <-]; eauto|].
  intros Hfree. apply check_free_Raise in Hfree as [a ->]. eauto.
Qed.

(** What [register] does, by the outcome of its three steps. *)
Lemma register_unfold cls alias inst fac kw w :
  register E cls alias inst fac kw w =
    match new_Context E cls (alias_set alias) inst fac kw with
    | Raise e => (w, Raise e)
    | Ok context =>
        match snd (_validate context w) with
        | Raise e => (w, Raise e)
        | Ok _ => _register context w
        end
    end.
Proof.
  unfold register, bind, lift.
  destruct (new_Context _ _ _ _ _ _) as [context|e]; [|done].
  pose proof (_validate_state context w) as Hst.
  destruct (_validate context w) as [w1 [[]|e]]; simpl in *; by subst.
Qed.

Lemma check_aliases_Raise t todo e :
  check_aliases E t todo = Raise e → ∃ why, e = ValidationError why.
Proof.
  induction todo as [|a todo IH]; simpl; [discriminate|].
  case_match; [intros [= <-]; eauto | done].
Qed.

Lemma new_Context_Raise t als inst fac kw e :
  new_Context E t als inst fac kw = Raise e → ∃ why, e = ValidationError why.
Proof.
  unfold new_Context, validate_model. intros H.
  destruct (_validate_instance E _) as [c1|e1] eqn:H1.
  - unfold _validate_aliases in H.
    destruct (check_aliases E (typename c1) _) as [[]|e2] eqn:H2.
    + unfold _validate_factory in H.
      destruct (factory c1); [|discriminate].
      destruct (negb _); [|discriminate]. injection H as <-. eauto.
    + injection H as <-. by eapply check_aliases_Raise.
  - injection H as <-. unfold _validate_instance in H1.
    repeat (case_match; try discriminate); injection H1 as <-; eauto.
Qed.

Lemma record_aliases_lookup t todo : ∀ als a,
  record_aliases t todo als !! a =
    if decide (a ∈ todo) then Some t else als !! a.
Proof.
  induction todo as [|x todo IH]; intros als a; simpl.
  - destruct (decide (a ∈ [])) as [Hin|]; [inversion Hin | done].
  - rewrite IH.
    destruct (decide (a ∈ todo)) as [Hin|Hnin], (decide (a ∈ x :: todo)) as [Hin'|Hnin'];
      try done.
    + exfalso. apply Hnin'. by right.
    + apply elem_of_cons in Hin' as [->|]; [by rewrite lookup_insert_eq | done].
    + rewrite lookup_insert_ne; [done|]. intros ->. apply Hnin'. by left.
Qed.

(** A successful [register]: the candidate Context validated, none of its
    keys was taken, and exactly its entries were added. *)
Lemma register_Ok cls alias inst fac kw w w' :
  register E cls alias inst fac kw w = (w', Ok tt) →
  ∃ context,
    new_Context E cls (alias_set alias) inst fac kw = Ok context ∧
    ¬ taken (builder w) cls ∧
    (∀ a, alias = Some a → ¬ taken (builder w) a) ∧
    _registrations (builder w') = <[cls := context]> (_registrations (builder w)) ∧
    (∀ a, _aliases (builder w') !! a =
            if decide (alias = Some a) then Some cls else _aliases (builder w) !! a) ∧
    next_id w' = next_id w ∧ trace w' = trace w.
Proof.
  rewrite register_unfold.
  destruct (new_Context _ _ _ _ _ _) as [context|e] eqn:Hnew; [|discriminate].
  destruct (snd (_validate context w)) as [[]|e] eqn:Hval; [|discriminate].
  apply _validate_Ok in Hval as [Hcls Hals].
  destruct (new_Context_fields _ _ _ _ _ _ Hnew) as (Ht & Ha & _ & _).
  rewrite Ht in Hcls. rewrite Ha in Hals.
  unfold _register. intros [= <-]. exists context. simpl. rewrite Ht, Ha.
  repeat split; try done.
  - intros a ->. apply Hals. simpl. by apply elem_of_singleton.
  - intros a. rewrite record_aliases_lookup.
    destruct alias as [x|]; simpl.
    + rewrite elements_singleton.
      destruct (decide (a ∈ [x])) as [Hin|Hnin], (decide (Some x = Some a)) as [Heq|Hne];
        try done.
      * apply list_elem_of_singleton in Hin as ->. done.
      * injection Heq as ->. exfalso. apply Hnin. by left.
    + rewrite elements_empty.
      destruct (decide (a ∈ [])) as [Hin|]; [inversion Hin|].
      destruct (decide (None = Some a)); done.
Qed.

Lemma register_Raise cls alias inst fac kw w w' e :
  register E cls alias inst fac kw w = (w', Raise e) → w' = w.
Proof.
  rewrite register_unfold. unfold _register.
  repeat case_match; congruence.
Qed.

(** C5 (as amended). [register] is all-or-nothing: every failing call leaves
    the state as it was; and a call whose type key, or whose alias, is
    already a registered type or an alias fails: with a [RegistrationError]
    when the candidate Context passed its own validation, and with that
    validation's error otherwise, since the Context is built first. *)
Theorem register_all_or_nothing (cls : ty) (alias : option ty) (inst : value)
    (fac : option Callable) (kw : dict) (w : World) :
  (∀ w' e, register E cls alias inst fac kw w = (w', Raise e) → w' = w) ∧
  (taken (builder w) cls ∨ (∃ a, alias = Some a ∧ taken (builder w) a) →
   ∃ e, register E cls alias inst fac kw w = (w, Raise e) ∧
        match new_Context E cls (alias_set alias) inst fac kw with
        | Ok _ => ∃ why, e = RegistrationError why
        | Raise _ => ∃ why, e = ValidationError why
        end).
Proof.
  split; [intros w' e; apply register_Raise|].
  intros Htaken. rewrite register_unfold.
  destruct (new_Context _ _ _ _ _ _) as [context|e] eqn:Hnew.
  - destruct (new_Context_fields _ _ _ _ _ _ Hnew) as (Ht & Ha & _ & _).
    destruct (snd (_validate context w)) as [[]|e] eqn:Hval.
    + exfalso. apply _validate_Ok in Hval as [Hcls Hals].
      rewrite Ht in Hcls. rewrite Ha in Hals.
      destruct Htaken as [H | (a & -> & H)]; [done|].
      apply (Hals a); [|done]. simpl. by apply elem_of_singleton.
    + exists e. split; [done|]. by eapply _validate_Raise.
  - exists e. split; [done|]. by eapply new_Context_Raise.
Qed.

End Registration.

(** ** Invariants of the reachable states *)

Section Invariants.

Variable E : Classes.

Lemma registry_invariant_new : registry_invariant Builder__init__.
Proof.
  repeat split; intros ? **; simpl in *; by rewrite ?lookup_empty in *.
Qed.

Lemma registry_invariant_register cls alias inst fac kw w :
  registry_invariant (builder w) →
  registry_invariant (builder (fst (register E cls alias inst fac kw w))).
Proof.
  intros (I1 & I2 & I3).
  destruct (register E cls alias inst fac kw w) as [w' [[]|e]] eqn:Hreg; simpl.
  2:{ apply register_Raise in Hreg as ->. done. }
  apply register_Ok in Hreg as (context & _ & Hcls & Hal & Hregs & Hals & _).
  assert (∀ t, is_Some (_registrations (builder w) !! t) →
               is_Some (_registrations (builder w') !! t)) as Hmono.
  { intros t Ht. rewrite Hregs. rewrite lookup_insert_is_Some'. tauto. }
  assert (∀ a, _aliases (builder w) !! a ≠ Some cls) as Hnew.
  { intros a Ha. apply Hcls. left. by eapply I1. }
  repeat split.
  - intros a t. rewrite Hals. case_decide as Ha.
    + intros [= <-]. rewrite Hregs, lookup_insert_eq. eauto.
    + intros Hat. apply Hmono. by eapply I1.
  - intros a t. rewrite Hals, Hregs, lookup_insert_is_Some'. case_decide as Ha.
    + intros [= <-] [-> | Hreg]; [done|].
      exfalso. apply (Hal a Ha). by left.
    + intros Hat [<- | Hreg]; [|by eapply I2].
      exfalso. apply Hcls. right. eauto.
  - intros a a' t. rewrite !Hals. repeat case_decide; intros H1 H2; simplify_eq.
    + done.
    + by destruct (Hnew a').
    + by destruct (Hnew a).
    + by eapply I3.
Qed.

Lemma reachable_invariant w : reachable E w → registry_invariant (builder w).
Proof.
  induction 1 as [w Hnew | w cls alias inst fac kw _ IH].
  - rewrite Hnew. apply registry_invariant_new.
  - by apply registry_invariant_register.
Qed.

Lemma reachable_ok_reachable w : reachable_ok E w → reachable E w.
Proof.
  induction 1 as [w Hnew | w w' cls alias inst fac kw _ IH Hreg].
  - by apply reach_new.
  - replace w' with (fst (register E cls alias inst fac kw w)) by (by rewrite Hreg).
    by apply reach_register.
Qed.

(** In every reachable state -- failed calls included -- each value of the
    alias map is a key of the registration map. *)
Lemma reachable_alias_targets_registered w a t :
  reachable E w →
  _aliases (builder w) !! a = Some t →
  is_Some (_registrations (builder w) !! t).
Proof. intros Hw. by apply (reachable_invariant w Hw). Qed.

(** A type registered as its own alias sends alias resolution round in
    circles, from itself and from every alias that leads to it. *)
Lemma self_alias_loops b t fuel :
  _aliases b !! t = Some t → _resolve_alias fuel b t = None.
Proof.
  intros Ht. induction fuel as [|n IH]; simpl; [done|]. by rewrite Ht.
Qed.

(** In a reachable state an alias chain has one link, unless it is the
    loop of a type registered as its own alias. *)
Lemma reachable_alias_chain w x :
  reachable E w →
  (∃ k, _resolve_alias 2 (builder w) x = Some k ∧
        (is_Some (_aliases (builder w) !! x) →
         _aliases (builder w) !! x = Some k ∧ is_Some (_registrations (builder w) !! k)))
  ∨ (_aliases (builder w) !! x = Some x ∧ ∀ fuel, _resolve_alias fuel (builder w) x = None).
Proof.
  intros Hw. destruct (reachable_invariant w Hw) as (I1 & I2 & I3).
  destruct (_aliases (builder w) !! x) as [t|] eqn:Hx.
  - destruct (_aliases (builder w) !! t) as [u|] eqn:Ht.
    + right. assert (u = t) as -> by (eapply I2; [done | by eapply I1]).
      assert (x = t) as -> by (by eapply I3). split; [done|].
      intros fuel. by apply self_alias_loops.
    + left. exists t. split.
      * simpl. by rewrite Hx, Ht.
      * intros _. split; [done | by eapply I1].
  - left. exists x. split; [by simpl; rewrite Hx | by intros [? ?]].
Qed.

(** Alias resolution terminates in every reachable state that holds no
    type registered as its own alias. *)
Lemma reachable_alias_resolution_terminates w :
  reachable E w →
  (∀ t, _aliases (builder w) !! t ≠ Some t) →
  ∀ x, ∃ k, _resolve_alias 2 (builder w) x = Some k.
Proof.
  intros Hw Hnoself x.
  destruct (reachable_alias_chain w x Hw) as [(k & Hk & _) | [Hx _]]; [eauto|].
  by destruct (Hnoself x).
Qed.

(** [register(cls, alias=cls)] passes every check when [cls] is free, and
    stores [cls] as its own alias. *)
Lemma register_self_alias cls w :
  issubclass E cls cls = true →
  ¬ taken (builder w) cls →
  ∃ w', register E cls (Some cls) VNone None ∅ w = (w', Ok tt) ∧
        _aliases (builder w') !! cls = Some cls.
Proof.
  intros Hrefl Hfree. rewrite register_unfold.
  assert (∃ context, new_Context E cls (alias_set (Some cls)) VNone None ∅ = Ok context)
    as [context Hnew].
  { unfold new_Context, validate_model, _validate_instance, _validate_aliases,
      _validate_factory. simpl.
    destruct (isinstance E VNone DelayedCreation); simpl;
      rewrite elements_singleton; simpl; rewrite Hrefl; simpl; eauto. }
  rewrite Hnew.
  destruct (new_Context_fields _ _ _ _ _ _ _ Hnew) as (Ht & Ha & _ & _).
  assert (snd (_validate context w) = Ok tt) as ->.
  { apply _validate_Ok. rewrite Ht, Ha. split; [done|].
    intros a Hin. simpl in Hin. apply elem_of_singleton in Hin as ->. done. }
  eexists. split; [reflexivity|]. simpl.
  rewrite Ht, Ha. simpl. rewrite elements_singleton. simpl.
  by rewrite lookup_insert_eq.
Qed.

End Invariants.

(** ** Instances *)

Section Instances.

Variable E : Classes.

(** A stored instance that is true is returned as it is, whatever the call
    arguments, and nothing is built. *)
Lemma Context_resolve_true_instance br slot self kw w :
  is_DelayedCreation (instance self) = false →
  truth (instance self) = true →
  Context_resolve E br slot self kw w = (w, Ok (instance self)).
Proof.
  intros Hm Ht. unfold Context_resolve, Context__instance, bind, ret.
  by rewrite Hm, Ht.
Qed.




Lemma Builder_resolve_at fuel cls k kw w :
  _resolve_alias (S fuel) (builder w) cls = Some k →
  Builder_resolve E (S fuel) cls kw w =
    match _registrations (builder w) !! k with
    | None => (w, Raise (ResolutionError cls))
    | Some context =>
        call_method kw (Context_resolve E (Builder_resolve E fuel) k context) w
    end.
Proof.
  intros Hk.
  rewrite Builder_resolve_S.
  by rewrite Hk.
Qed.

(** A registered instance that is true is what every [resolve] returns, for
    any call arguments, and the state stays as it is. *)
Lemma Builder_resolve_true_instance cls k context w :
  alias_root (builder w) cls k →
  _registrations (builder w) !! k = Some context →
  is_DelayedCreation (instance context) = false →
  truth (instance context) = true →
  ∃ fuel0, ∀ fuel kw, (fuel0 ≤ fuel)%nat → clashes kw = false →
    Builder_resolve E (S fuel) cls kw w = (w, Ok (instance context)).
Proof.
  intros Hroot Hk Hm Ht.
  destruct (alias_root_resolves _ _ _ Hroot) as [n Hn].
  exists n. intros fuel kw Hle Hkw.
  rewrite (Builder_resolve_at fuel cls k).
  - rewrite Hk. unfold call_method. rewrite Hkw.
    by apply Context_resolve_true_instance.
  - eapply _resolve_alias_mono; [exact Hn | lia].
Qed.

(** [resolve] of a free key. *)
Lemma resolve_unknown_type_at cls kw w fuel :
  ¬ taken (builder w) cls →
  Builder_resolve E (S fuel) cls kw w = (w, Raise (ResolutionError cls)).
Proof.
  intros Hfree.
  assert (_aliases (builder w) !! cls = None) as Hal.
  { destruct (_aliases (builder w) !! cls) eqn:H; [|done]. destruct Hfree. right. eauto. }
  rewrite (Builder_resolve_at fuel cls cls) by (by apply _resolve_alias_absent).
  destruct (_registrations (builder w) !! cls) eqn:H; [|done].
  destruct Hfree. left. eauto.
Qed.

(** When the alias chain from [cls] has no end, [resolve] runs out of stack
    at every depth. *)
Lemma Builder_resolve_no_root cls kw w fuel :
  (∀ k, ¬ alias_root (builder w) cls k) →
  Builder_resolve E fuel cls kw w = (w, Raise RecursionError).
Proof.
  intros Hnone. destruct fuel as [|n]; [reflexivity|].
  rewrite Builder_resolve_S.
  destruct (_resolve_alias (S n) (builder w) cls) as [k|] eqn:Hk; [|done].
  destruct (Hnone k). by eapply _resolve_alias_root.
Qed.

(** The first resolution of a deferred Context whose build gives an object
    that is false stores it and builds once more. *)
Lemma Context_resolve_deferred_false br slot self kw w w1 v :
  is_DelayedCreation (instance self) = true →
  Context__create E br self kw w = (w1, Ok v) →
  truth v = false →
  Context_resolve E br slot self kw w
    = Context__create E br self kw (fst (store_instance slot v w1)).
Proof.
  intros Hm Hc Ht. unfold Context_resolve, Context__instance, bind, ret.
  rewrite Hm, Hc. simpl. by rewrite Ht.
Qed.

(** Validation of a supplied instance that is true: it must be of the
    registered type and come without partial arguments and without a
    factory, or [register] fails with a validation error. *)
Lemma register_true_instance_validated cls alias inst fac kw w :
  truth inst = true →
  isinstance E inst DelayedCreation = false →
  is_DelayedCreation inst = false →
  isinstance E inst cls = false ∨ kw ≠ ∅ ∨ is_Some fac →
  ∃ why, register E cls alias inst fac kw w = (w, Raise (ValidationError why)).
Proof.
  intros Ht Hd Hm Hbad. rewrite register_unfold.
  unfold new_Context, validate_model, _validate_instance. simpl.
  rewrite Hd. simpl. rewrite Ht, Hm. simpl.
  destruct (isinstance E inst cls); simpl; [|eauto].
  destruct (bool_decide (kw = ∅)) eqn:Hkw; simpl; [|eauto].
  destruct (bool_decide (is_Some fac)) eqn:Hfac; simpl; [eauto|].
  apply bool_decide_eq_true in Hkw. apply bool_decide_eq_false in Hfac.
  destruct Hbad as [? | [? | ?]]; done.
Qed.



End Instances.

(** ** Resolution changes only instance slots *)

Section Frame.

Variable E : Classes.

Lemma same_shape_refl b : same_shape b b.
Proof.
  split; [done|]. intros k. destruct (_registrations b !! k); [|done].
  by repeat split.
Qed.

Lemma same_shape_trans b1 b2 b3 :
  same_shape b1 b2 → same_shape b2 b3 → same_shape b1 b3.
Proof.
  intros [Ha Hr] [Ha' Hr']. split; [congruence|]. intros k.
  specialize (Hr k). specialize (Hr' k).
  destruct (_registrations b1 !! k), (_registrations b2 !! k),
    (_registrations b3 !! k); try done.
  destruct Hr as (?&?&?&?), Hr' as (?&?&?&?). repeat split; congruence.
Qed.

Lemma keeps_shape_ret {A} (a : A) : keeps_shape (ret a).
Proof. intros w. apply same_shape_refl. Qed.

Lemma keeps_shape_bind {A B} (c : M A) (k : A → M B) :
  keeps_shape c → (∀ a, keeps_shape (k a)) → keeps_shape (bind c k).
Proof.
  intros Hc Hk w. unfold bind. specialize (Hc w).
  destruct (c w) as [w1 [a|e]]; simpl in *; [|done].
  eapply same_shape_trans; [exact Hc | apply Hk].
Qed.

Lemma keeps_shape_call_factory f args : keeps_shape (call_factory f args).
Proof. intros w. unfold call_factory. case_match; apply same_shape_refl. Qed.

Lemma keeps_shape_call_type t args : keeps_shape (call_type E t args).
Proof. intros w. unfold call_type. case_match; apply same_shape_refl. Qed.

Lemma keeps_shape_store_instance slot v : keeps_shape (store_instance slot v).
Proof.
  intros w. split; [done|]. intros k. simpl.
  destruct (decide (slot = k)) as [->|Hne].
  - rewrite lookup_alter_eq. destruct (_registrations (builder w) !! k); [|done].
    by repeat split.
  - rewrite lookup_alter_ne by done.
    destruct (_registrations (builder w) !! k); [|done]. by repeat split.
Qed.

Section WithBuilder.

Variable builder_resolve : ty → dict → M value.
Hypothesis builder_keeps : ∀ cls kw, keeps_shape (builder_resolve cls kw).

Lemma keeps_shape_resolve_param self kw param :
  keeps_shape (resolve_param builder_resolve self kw param).
Proof.
  unfold resolve_param. repeat case_match; auto using @keeps_shape_ret.
Qed.

Lemma keeps_shape_resolve_params self kw params :
  ∀ acc, keeps_shape (resolve_params builder_resolve self kw params acc).
Proof.
  induction params as [|p ps IH]; intros acc; simpl.
  - apply keeps_shape_ret.
  - apply keeps_shape_bind; [apply keeps_shape_resolve_param | intros v; apply IH].
Qed.

Lemma keeps_shape_create self kw :
  keeps_shape (Context__create E builder_resolve self kw).
Proof.
  unfold Context__create. apply keeps_shape_bind.
  - apply keeps_shape_resolve_params.
  - intros resolved. case_match;
      [apply keeps_shape_call_factory | apply keeps_shape_call_type].
Qed.

Lemma keeps_shape_instance slot self kw :
  keeps_shape (Context__instance E builder_resolve slot self kw).
Proof.
  unfold Context__instance. case_match; [|apply keeps_shape_ret].
  apply keeps_shape_bind; [apply keeps_shape_create|]. intros v.
  apply keeps_shape_bind; [apply keeps_shape_store_instance|]. intros _.
  apply keeps_shape_ret.
Qed.

Lemma keeps_shape_Context_resolve slot self kw :
  keeps_shape (Context_resolve E builder_resolve slot self kw).
Proof.
  unfold Context_resolve. apply keeps_shape_bind; [apply keeps_shape_instance|].
  intros v. case_match; [apply keeps_shape_ret | apply keeps_shape_create].
Qed.

End WithBuilder.

(** [Builder.resolve] adds and removes no key, and leaves every Context's
    recipe as registered. *)
Lemma keeps_shape_Builder_resolve fuel : ∀ cls kw,
  keeps_shape (Builder_resolve E fuel cls kw).
Proof.
  induction fuel as [|n IH]; intros cls kw w; simpl; [apply same_shape_refl|].
  destruct (match _aliases (builder w) !! cls with
            | Some t => _resolve_alias n (builder w) t
            | None => Some cls
            end) as [k|]; [|apply same_shape_refl].
  destruct (_registrations (builder w) !! k) as [context|]; [|apply same_shape_refl].
  unfold call_method. destruct (clashes kw); [apply same_shape_refl|].
  by apply keeps_shape_Context_resolve.
Qed.

Lemma same_shape_invariant b b' :
  same_shape b b' → registry_invariant b → registry_invariant b'.
Proof.
  intros [Ha Hr] (I1 & I2 & I3).
  assert (∀ k, is_Some (_registrations b' !! k) ↔ is_Some (_registrations b !! k)) as Hdom.
  { intros k. specialize (Hr k).
    destruct (_registrations b !! k), (_registrations b' !! k); try done.
    all: split; intros [? ?]; done. }
  repeat split.
  - intros a t. rewrite Ha, Hdom. apply I1.
  - intros a t. rewrite Ha, Hdom. apply I2.
  - intros a a' t. rewrite !Ha. apply I3.
Qed.

(** The registry invariant also survives every [resolve]. *)
Lemma registry_invariant_resolve fuel cls kw w :
  registry_invariant (builder w) →
  registry_invariant (builder (fst (Builder_resolve E fuel cls kw w))).
Proof. apply same_shape_invariant, keeps_shape_Builder_resolve. Qed.

(** ** More stack changes no result *)

Lemma extends_bind {A B} (c c' : M A) (k k' : A → M B) :
  extends c c' → (∀ a, extends (k a) (k' a)) → extends (bind c k) (bind c' k').
Proof.
  intros Hc Hk w. unfold bind. specialize (Hc w).
  destruct (c w) as [w1 [a|e]] eqn:Hcw; simpl in *.
  - rewrite Hc; [apply Hk | discriminate].
  - intros He. simpl in He. rewrite Hc; [reflexivity|]. congruence.
Qed.

Lemma extends_refl {A} (c : M A) : extends c c.
Proof. by intros w _. Qed.

Section MoreStack.

Variables br br' : ty → dict → M value.
Hypothesis br_extends : ∀ cls kw, extends (br cls kw) (br' cls kw).

Lemma extends_resolve_params self kw params : ∀ acc,
  extends (resolve_params br self kw params acc) (resolve_params br' self kw params acc).
Proof.
  induction params as [|p ps IH]; intros acc; simpl; [apply extends_refl|].
  apply extends_bind; [|intros v; apply IH].
  unfold resolve_param. repeat case_match; auto using @extends_refl.
Qed.

Lemma extends_create self kw :
  extends (Context__create E br self kw) (Context__create E br' self kw).
Proof.
  unfold Context__create. apply extends_bind; [apply extends_resolve_params|].
  intros resolved. apply extends_refl.
Qed.

Lemma extends_Context_resolve slot self kw :
  extends (Context_resolve E br slot self kw) (Context_resolve E br' slot self kw).
Proof.
  unfold Context_resolve, Context__instance. apply extends_bind.
  - case_match; [|apply extends_refl].
    apply extends_bind; [apply extends_create | intros v; apply extends_refl].
  - intros v. case_match; [apply extends_refl | apply extends_create].
Qed.

End MoreStack.

(** An outcome reached within some depth of stack is the outcome at every
    greater depth. *)
Lemma Builder_resolve_more_stack fuel : ∀ fuel' cls kw,
  (fuel ≤ fuel')%nat →
  extends (Builder_resolve E fuel cls kw) (Builder_resolve E fuel' cls kw).
Proof.
  induction fuel as [|n IH]; intros fuel' cls kw Hle w Hrun; [by destruct Hrun|].
  destruct fuel' as [|m]; [lia|].
  rewrite (Builder_resolve_S E n) in *.
  destruct (_resolve_alias (S n) (builder w) cls) as [k|] eqn:Hk; [|by destruct Hrun].
  rewrite (Builder_resolve_at E m cls k)
    by (eapply _resolve_alias_mono; [exact Hk | lia]).
  destruct (_registrations (builder w) !! k) as [context|]; [|done].
  unfold call_method in *. destruct (clashes kw); [done|].
  apply (extends_Context_resolve (Builder_resolve E n) (Builder_resolve E m));
    [|exact Hrun].
  intros cls' kw'. apply IH. lia.
Qed.

(** ** Deferred creation *)


End Frame.

(** * Further properties of the Builder *)

Section Membership.

Variable E : Classes.

Lemma live_invariant w : live E w → registry_invariant (builder w).
Proof.
  induction 1 as [w Hnew | w cls alias inst fac kw _ IH | w fuel cls kw _ IH].
  - rewrite Hnew. apply registry_invariant_new.
  - by apply registry_invariant_register.
  - by apply registry_invariant_resolve.
Qed.

(** X1. After a successful [register(cls, alias, ...)] the membership test
    answers true for [cls] and for the alias, and for every other key what it
    answered before the call. *)
Theorem register_then_contains cls alias inst fac kw w w' key b :
  register E cls alias inst fac kw w = (w', Ok tt) →
  Builder__contains__ key w = (w, Ok b) →
  Builder__contains__ key w'
    = (w', Ok (b || bool_decide (key = cls) || bool_decide (alias = Some key))).
Proof.
  intros Hreg Hb. apply register_Ok in Hreg as (context & _ & _ & _ & Hregs & Hals & _).
  unfold Builder__contains__ in *. injection Hb as <-. do 2 f_equal.
  rewrite Hregs, Hals.
  destruct (decide (key = cls)) as [->|Hne].
  - rewrite lookup_insert_eq. rewrite (bool_decide_eq_true_2 (is_Some (Some context)))
      by eauto. rewrite (bool_decide_eq_true_2 (cls = cls)) by done.
    simpl. by rewrite !orb_true_r.
  - rewrite lookup_insert_ne by done. rewrite (bool_decide_eq_false_2 (key = cls)) by done.
    rewrite orb_false_r. destruct (decide (alias = Some key)) as [Ha|Ha].
    + rewrite (bool_decide_eq_true_2 _ Ha).
      rewrite (bool_decide_eq_true_2 (is_Some (Some cls))) by eauto.
      by rewrite !orb_true_r.
    + rewrite (bool_decide_eq_false_2 _ Ha). by rewrite orb_false_r.
Qed.

(** X2. The Builder never forgets a key: a key the membership test accepts
    is still accepted after any [register] call, failed or not, and after any
    [resolve] call. *)
Theorem membership_never_lost key w :
  Builder__contains__ key w = (w, Ok true) →
  (∀ cls alias inst fac kw,
     snd (Builder__contains__ key (fst (register E cls alias inst fac kw w))) = Ok true) ∧
  (∀ fuel cls kw,
     snd (Builder__contains__ key (fst (Builder_resolve E fuel cls kw w))) = Ok true).
Proof.
  intros Hin. split.
  - intros cls alias inst fac kw.
    destruct (register E cls alias inst fac kw w) as [w' [[]|e]] eqn:Hreg.
    + cbn [fst]. rewrite (register_then_contains _ _ _ _ _ _ _ _ _ Hreg Hin). done.
    + apply register_Raise in Hreg as ->. cbn [fst]. by rewrite Hin.
  - intros fuel cls kw.
    destruct (keeps_shape_Builder_resolve E fuel cls kw w) as [Hal Hregs].
    unfold Builder__contains__ in *. cbn [snd] in *. injection Hin as Hin. f_equal.
    rewrite Hal. apply orb_true_iff in Hin. apply orb_true_iff.
    destruct Hin as [Hin|Hin]; [left | by right].
    apply bool_decide_eq_true in Hin. apply bool_decide_eq_true.
    specialize (Hregs key). destruct Hin as [c Hc]. rewrite Hc in Hregs.
    destruct (_registrations (builder (Builder_resolve E fuel cls kw w).1) !! key);
      [eauto | done].
Qed.

(** X3. [resolve] of a type that is neither registered nor an alias raises
    [ResolutionError] naming that type; nothing is called and the state is
    left as it was. *)
Theorem resolve_unknown_type cls kw w fuel :
  ¬ taken (builder w) cls →
  Builder_resolve E (S fuel) cls kw w = (w, Raise (ResolutionError cls)).
Proof. apply resolve_unknown_type_at. Qed.

(** X4. An alias is transparent: in a state reached by [register] and
    [resolve] calls, resolving an alias of another type does, step for step,
    what resolving that type does, with the same call arguments. *)
Theorem resolve_alias_as_type a t kw w fuel :
  live E w →
  _aliases (builder w) !! a = Some t →
  a ≠ t →
  Builder_resolve E (S (S fuel)) a kw w = Builder_resolve E (S (S fuel)) t kw w.
Proof.
  intros Hw Ha Hne. destruct (live_invariant w Hw) as (I1 & I2 & I3).
  assert (_aliases (builder w) !! t = None) as Ht.
  { destruct (_aliases (builder w) !! t) as [u|] eqn:Hu; [|done].
    assert (u = t) as -> by (eapply I2; [done | by eapply I1]).
    destruct Hne. by eapply I3. }
  rewrite (Builder_resolve_at E (S fuel) a t).
  - rewrite (Builder_resolve_at E (S fuel) t t); [|by apply _resolve_alias_absent].
    destruct (I1 _ _ Ha) as [c Hc]. by rewrite Hc.
  - simpl. by rewrite Ha, Ht.
Qed.

(** X5. An alias that the registered type is no subclass of makes [register]
    fail with a validation error, whatever else is passed and whatever the
    registry holds; the state is left as it was. *)
Theorem register_alias_not_supertype cls a inst fac kw w :
  issubclass E cls a = false →
  ∃ why, register E cls (Some a) inst fac kw w = (w, Raise (ValidationError why)).
Proof.
  intros Hsub. rewrite register_unfold.
  destruct (new_Context E cls (alias_set (Some a)) inst fac kw) as [context|e] eqn:Hnew.
  - exfalso. unfold new_Context, validate_model in Hnew.
    destruct (_validate_instance E _) as [c1|] eqn:H1; [|discriminate].
    apply _validate_instance_fields in H1 as (Ht & Hals & _). simpl in Ht, Hals.
    unfold _validate_aliases in Hnew. rewrite Ht, Hals in Hnew. simpl in Hnew.
    rewrite elements_singleton in Hnew. simpl in Hnew. by rewrite Hsub in Hnew.
  - apply new_Context_Raise in Hnew as [why ->]. eauto.
Qed.

(** X6. A factory whose declared return type is not the registered type
    makes [register] fail with a validation error, whatever else is passed;
    the state is left as it was. *)
Theorem register_factory_wrong_return cls alias inst f kw w :
  return_annotation f ≠ cls →
  ∃ why, register E cls alias inst (Some f) kw w = (w, Raise (ValidationError why)).
Proof.
  intros Hret. rewrite register_unfold.
  destruct (new_Context E cls (alias_set alias) inst (Some f) kw) as [context|e] eqn:Hnew.
  - exfalso. unfold new_Context, validate_model in Hnew.
    destruct (_validate_instance E _) as [c1|] eqn:H1; [|discriminate].
    apply _validate_instance_fields in H1 as (Ht & _ & _ & Hf). simpl in Ht, Hf.
    unfold _validate_aliases in Hnew.
    destruct (check_aliases E (typename c1) _); [|discriminate].
    unfold _validate_factory in Hnew. rewrite Hf, Ht in Hnew.
    destruct (String.eqb (return_annotation f) cls) eqn:Heq; [|discriminate].
    by apply String.eqb_eq in Heq.
  - apply new_Context_Raise in Hnew as [why ->]. eauto.
Qed.

(** X7. An instance of [DelayedCreation] passed as [instance] is replaced by
    the class itself before anything is checked: the call does what the call
    with the class does, partial arguments and factory included. *)
Theorem register_DelayedCreation_instance cls alias inst fac kw w :
  isinstance E inst DelayedCreation = true →
  register E cls alias inst fac kw w
    = register E cls alias (VType DelayedCreation) fac kw w.
Proof.
  intros Hd. rewrite !register_unfold.
  assert (new_Context E cls (alias_set alias) inst fac kw
          = new_Context E cls (alias_set alias) (VType DelayedCreation) fac kw) as ->; [|done].
  unfold new_Context, validate_model, _validate_instance. simpl. rewrite Hd.
  by destruct (isinstance E (VType DelayedCreation) DelayedCreation).
Qed.

(** X9. In every state reached by [register] and [resolve] calls, each value
    of the alias map is a key of the registration map, and a key that is
    both an alias and a registered type is its own alias. *)
Theorem live_aliases_registered w a t :
  live E w →
  _aliases (builder w) !! a = Some t →
  is_Some (_registrations (builder w) !! t) ∧
  (is_Some (_registrations (builder w) !! a) → t = a).
Proof.
  intros Hw Ha. destruct (live_invariant w Hw) as (I1 & I2 & _).
  split; [by eapply I1 | by apply I2].
Qed.

(** X10. Where no type is its own alias, alias resolution returns within two
    frames: the key itself when it is no alias, else the type it aliases,
    which is registered. *)
Theorem alias_resolution_two_frames w x :
  live E w →
  map_Forall (λ a t, a ≠ t) (_aliases (builder w)) →
  ∃ k, _resolve_alias 2 (builder w) x = Some k ∧
       match _aliases (builder w) !! x with
       | None => k = x
       | Some t => k = t ∧ is_Some (_registrations (builder w) !! k)
       end.
Proof.
  intros Hw Hnoself. destruct (live_invariant w Hw) as (I1 & I2 & I3).
  destruct (_aliases (builder w) !! x) as [t|] eqn:Hx.
  - destruct (_aliases (builder w) !! t) as [u|] eqn:Ht.
    + assert (u = t) as -> by (eapply I2; [done | by eapply I1]).
      by destruct (Hnoself t t Ht).
    + exists t. simpl. rewrite Hx, Ht. split; [done|]. split; [done | by eapply I1].
  - exists x. simpl. by rewrite Hx.
Qed.

(** X11. Registering a free type as its own alias passes every check, and
    from then on [resolve] of that type runs out of stack at every depth. *)
Theorem register_self_alias_unresolvable cls w :
  issubclass E cls cls = true →
  ¬ taken (builder w) cls →
  ∃ w', register E cls (Some cls) VNone None ∅ w = (w', Ok tt) ∧
        ∀ fuel kw, Builder_resolve E fuel cls kw w' = (w', Raise RecursionError).
Proof.
  intros Hrefl Hfree.
  destruct (register_self_alias E cls w Hrefl Hfree) as (w' & Hreg & Hself).
  exists w'. split; [done|]. intros fuel kw.
  apply Builder_resolve_no_root. intros k Hroot.
  apply alias_root_resolves in Hroot as [n Hn].
  by rewrite self_alias_loops in Hn.
Qed.

End Membership.

(** * Further properties of resolution *)

Section Resolution.

Variable E : Classes.

Lemma keeps_settled_refl w : keeps_settled w w.
Proof. split; [lia | auto]. Qed.

Lemma keeps_settled_trans w1 w2 w3 :
  keeps_settled w1 w2 → keeps_settled w2 w3 → keeps_settled w1 w3.
Proof. intros [Hn H] [Hn' H']. split; [lia | auto]. Qed.

Lemma keeps_settled_bind {A B} (c : M A) (k : A → M B) w :
  keeps_settled w (fst (c w)) →
  (∀ a w1, keeps_settled w1 (fst (k a w1))) →
  keeps_settled w (fst (bind c k w)).
Proof.
  intros Hc Hk. unfold bind. destruct (c w) as [w1 [a|e]]; simpl in *; [|done].
  eapply keeps_settled_trans; [exact Hc | apply Hk].
Qed.

Lemma same_shape_taken b b' k : same_shape b b' → taken b' k ↔ taken b k.
Proof.
  intros [Hal Hregs]. unfold taken. rewrite Hal. specialize (Hregs k).
  destruct (_registrations b !! k), (_registrations b' !! k); try done.
  all: split; intros [[? ?]|?]; eauto; done.
Qed.

Lemma resolve_params_app br self kw (before rest : list Param) : ∀ acc w,
  resolve_params br self kw (before ++ rest)%list acc w =
    bind (resolve_params br self kw before acc)
         (λ acc', resolve_params br self kw rest acc') w.
Proof.
  induction before as [|p ps IH]; intros acc w; simpl; [reflexivity|].
  unfold bind. destruct (resolve_param br self kw p w) as [w1 [v|e]]; [|done].
  rewrite IH. reflexivity.
Qed.

Lemma resolve_params_cons br self kw param params acc w :
  resolve_params br self kw (param :: params) acc w =
    match resolve_param br self kw param w with
    | (w1, Ok v) => resolve_params br self kw params (<[param_name param := v]> acc) w1
    | (w1, Raise e) => (w1, Raise e)
    end.
Proof. reflexivity. Qed.

Lemma by_precedence_supplied br self kw param wa v v' :
  supplied self kw param = Some v' →
  by_precedence br self kw param wa v → v = v'.
Proof.
  unfold supplied, by_precedence.
  repeat case_match; congruence.
Qed.

Section WithBuilder.

(** Any builder whose [resolve] keeps the shape of the registry, leaves the
    settled registrations alone and names only free types in its
    [ResolutionError]s. *)
Variable br : ty → dict → M value.
Hypothesis br_shape : ∀ cls kw, keeps_shape (br cls kw).
Hypothesis br_settled : ∀ cls kw w, keeps_settled w (fst (br cls kw w)).
Hypothesis br_sound : ∀ cls kw w t,
  registry_invariant (builder w) →
  snd (br cls kw w) = Raise (ResolutionError t) → ¬ taken (builder w) t.

Lemma keeps_settled_resolve_params self kw params : ∀ acc w,
  keeps_settled w (fst (resolve_params br self kw params acc w)).
Proof.
  induction params as [|p ps IH]; intros acc w; simpl; [apply keeps_settled_refl|].
  apply keeps_settled_bind; [|intros v w1; apply IH].
  unfold resolve_param, ret. repeat case_match; auto using keeps_settled_refl.
Qed.

Lemma keeps_settled_invoke self args w :
  keeps_settled w (fst (invoke E self args w)).
Proof.
  unfold invoke, call_factory, call_type.
  repeat case_match; split; simpl; auto with lia.
Qed.

Lemma keeps_settled_create self kw w :
  keeps_settled w (fst (Context__create E br self kw w)).
Proof.
  unfold Context__create. apply keeps_settled_bind.
  - apply keeps_settled_resolve_params.
  - intros resolved w1. apply keeps_settled_invoke.
Qed.

Lemma keeps_settled_Context_resolve slot self kw w :
  _registrations (builder w) !! slot = Some self →
  keeps_settled w (fst (Context_resolve E br slot self kw w)).
Proof.
  intros Hself.
  assert (keeps_settled w (fst (Context__instance E br slot self kw w))) as Hinst.
  { unfold Context__instance.
    destruct (is_DelayedCreation (instance self)) eqn:Hm; [|apply keeps_settled_refl].
    pose proof (keeps_settled_create self kw w) as Hc. unfold bind.
    destruct (Context__create E br self kw w) as [w1 [v|e]]; [|done].
    destruct Hc as [Hn Hc]. split; [done|]. intros k c Hk Hs. simpl.
    destruct (decide (slot = k)) as [<-|Hne].
    - rewrite Hself in Hk. injection Hk as <-. congruence.
    - rewrite lookup_alter_ne by done. by apply Hc. }
  unfold Context_resolve, bind.
  destruct (Context__instance E br slot self kw w) as [w1 [v|e]]; [|done].
  destruct (truth v); [done|].
  eapply keeps_settled_trans; [exact Hinst | apply keeps_settled_create].
Qed.

Lemma sound_resolve_params self kw params : ∀ acc w t,
  registry_invariant (builder w) →
  snd (resolve_params br self kw params acc w) = Raise (ResolutionError t) →
  ¬ taken (builder w) t.
Proof.
  induction params as [|p ps IH]; intros acc w t Hinv; simpl; [done|].
  unfold bind.
  assert (keeps_shape (resolve_param br self kw p)) as Hshape
    by (by apply keeps_shape_resolve_param).
  specialize (Hshape w).
  destruct (resolve_param br self kw p w) as [w1 [v|e]] eqn:Hp; simpl in *.
  - intros Hrun Htaken. eapply IH; [|exact Hrun|].
    + by eapply same_shape_invariant.
    + by apply (same_shape_taken _ _ t Hshape).
  - intros [= ->]. unfold resolve_param, ret in Hp.
    repeat case_match; try discriminate.
    apply (br_sound (param_annotation p) ∅ w); [done | by rewrite Hp].
Qed.

Lemma sound_create self kw w t :
  registry_invariant (builder w) →
  snd (Context__create E br self kw w) = Raise (ResolutionError t) →
  ¬ taken (builder w) t.
Proof.
  intros Hinv. unfold Context__create, bind.
  pose proof (sound_resolve_params self kw
    (trimmed_params (signature_of E self)) (kwargs self) w t Hinv) as Hps.
  destruct (resolve_params br self kw _ _ w) as [w1 [resolved|e]]; simpl in *.
  - unfold call_factory, call_type. repeat case_match; simpl; discriminate.
  - intros [= ->]. by apply Hps.
Qed.

Lemma sound_Context_resolve slot self kw w t :
  registry_invariant (builder w) →
  snd (Context_resolve E br slot self kw w) = Raise (ResolutionError t) →
  ¬ taken (builder w) t.
Proof.
  intros Hinv. unfold Context_resolve, bind.
  pose proof (keeps_shape_instance E br br_shape slot self kw w) as Hshape.
  assert (snd (Context__instance E br slot self kw w) = Raise (ResolutionError t) →
          ¬ taken (builder w) t) as Hinst.
  { unfold Context__instance. destruct (is_DelayedCreation (instance self)); [|done].
    unfold bind. pose proof (sound_create self kw w t Hinv) as Hc.
    destruct (Context__create E br self kw w) as [w1 [v|e]]; simpl in *; [done|].
    intros [= ->]. by apply Hc. }
  destruct (Context__instance E br slot self kw w) as [w1 [v|e]]; simpl in *;
    [|intros [= ->]; by apply Hinst].
  destruct (truth v); [done|].
  intros Hrun Htaken. eapply (sound_create self kw w1 t); [|exact Hrun|].
  - by eapply same_shape_invariant.
  - by apply (same_shape_taken _ _ t Hshape).
Qed.


End WithBuilder.

Lemma keeps_settled_Builder_resolve fuel : ∀ cls kw w,
  keeps_settled w (fst (Builder_resolve E fuel cls kw w)).
Proof.
  induction fuel as [|n IH]; intros cls kw w; [apply keeps_settled_refl|].
  rewrite Builder_resolve_S.
  destruct (_resolve_alias (S n) (builder w) cls) as [k|]; [|apply keeps_settled_refl].
  destruct (_registrations (builder w) !! k) as [context|] eqn:Hk;
    [|apply keeps_settled_refl].
  unfold call_method. destruct (clashes kw); [apply keeps_settled_refl|].
  by apply keeps_settled_Context_resolve.
Qed.

Lemma sound_Builder_resolve fuel : ∀ cls kw w t,
  registry_invariant (builder w) →
  snd (Builder_resolve E fuel cls kw w) = Raise (ResolutionError t) →
  ¬ taken (builder w) t.
Proof.
  induction fuel as [|n IH]; intros cls kw w t Hinv; [done|].
  rewrite Builder_resolve_S.
  destruct (_resolve_alias (S n) (builder w) cls) as [k|] eqn:Hroot; [|done].
  destruct (_registrations (builder w) !! k) as [context|] eqn:Hk.
  - unfold call_method. destruct (clashes kw); [done|].
    apply sound_Context_resolve; [apply keeps_shape_Builder_resolve | exact IH | done].
  - intros [= <-]. destruct Hinv as (I1 & I2 & I3).
    simpl in Hroot. destruct (_aliases (builder w) !! cls) as [u|] eqn:Hcls.
    + exfalso. destruct (I1 _ _ Hcls) as [c Hc].
      destruct n as [|n]; [done|]. simpl in Hroot.
      destruct (_aliases (builder w) !! u) as [u'|] eqn:Hu.
      * assert (u' = u) as -> by (eapply I2; eauto).
        by rewrite self_alias_loops in Hroot.
      * injection Hroot as <-. congruence.
    + injection Hroot as <-. intros [[c Hc]|[c Hc]]; congruence.
Qed.

(** X12. [resolve] changes nothing of the registry but the instance slot of
    deferred registrations: the alias map and the set of registered keys
    stay, every Context keeps its type, aliases, partial arguments and
    factory, and a Context whose instance is not the deferred-creation marker
    stays as it is. *)
Theorem resolve_fills_only_deferred_slots fuel cls kw w :
  _aliases (builder (fst (Builder_resolve E fuel cls kw w))) = _aliases (builder w) ∧
  (∀ k c, _registrations (builder w) !! k = Some c →
     ∃ c', _registrations (builder (fst (Builder_resolve E fuel cls kw w))) !! k = Some c' ∧
           same_recipe c c' ∧
           (is_DelayedCreation (instance c) = false → c' = c)) ∧
  (∀ k, _registrations (builder w) !! k = None →
        _registrations (builder (fst (Builder_resolve E fuel cls kw w))) !! k = None).
Proof.
  destruct (keeps_shape_Builder_resolve E fuel cls kw w) as [Hal Hregs].
  destruct (keeps_settled_Builder_resolve fuel cls kw w) as [_ Hset].
  split; [done|]. split.
  - intros k c Hk. specialize (Hregs k). rewrite Hk in Hregs.
    destruct (_registrations _ !! k) as [c'|] eqn:Hk'; [|done].
    exists c'. split; [done|]. split; [done|].
    intros Hs. specialize (Hset k c Hk Hs). congruence.
  - intros k Hk. specialize (Hregs k). rewrite Hk in Hregs.
    by destruct (_registrations _ !! k).
Qed.


(** X14. In a state reached by [register] and [resolve] calls, a
    [ResolutionError] of [resolve] names a type that is neither registered
    nor an alias: the requested type, or a dependency met on the way. *)
Theorem ResolutionError_names_free_type fuel cls kw w t :
  live E w →
  snd (Builder_resolve E fuel cls kw w) = Raise (ResolutionError t) →
  ¬ taken (builder w) t.
Proof.
  intros Hw. apply sound_Builder_resolve. by apply (live_invariant E).
Qed.

(** X15. The build step hands the registration-time arguments that name no
    parameter to the factory or class as they are, and drops the call-time
    arguments that name no parameter. *)
Theorem create_passes_registration_kwargs br self kw w w' out :
  Context__create E br self kw w = (w', Ok out) →
  ∃ resolved w1,
    invoke E self resolved w1 = (w', Ok out) ∧
    ∀ key, key ∉ param_name <$> trimmed_params (signature_of E self) →
           resolved !! key = kwargs self !! key.
Proof.
  intros Hrun. unfold Context__create in Hrun.
  apply bind_Ok in Hrun as (w1 & resolved & Hps & Hcall).
  exists resolved, w1. split; [done|].
  by eapply resolve_params_keeps.
Qed.

(** X16. When every parameter has a call-time argument, a registration-time
    argument or a default, the build step never asks the builder: whatever
    the builder, it is the one call of the factory or class, made in the
    state the build started in, with exactly those values. *)
Theorem create_supplied_calls_once br self kw w :
  NoDup (param_name <$> signature_of E self) →
  (∀ param, param ∈ trimmed_params (signature_of E self) →
            is_Some (supplied self kw param)) →
  ∃ resolved,
    Context__create E br self kw w = invoke E self resolved w ∧
    ∀ param, param ∈ trimmed_params (signature_of E self) →
             resolved !! param_name param = supplied self kw param.
Proof.
  intros Hnd Hall.
  destruct (resolve_params_supplied br self kw _ (kwargs self) w Hall) as [resolved Hps].
  exists resolved. split.
  - unfold Context__create, bind. by rewrite Hps.
  - intros param Hin. apply list_elem_of_split in Hin as Hsplit.
    destruct Hsplit as (before & after & Hsplit).
    apply trimmed_params_NoDup in Hnd.
    destruct (resolve_params_spec br self kw _ _ _ _ _ Hnd Hps before param after Hsplit)
      as (wa & acca & v & _ & Hval & Hprec).
    destruct (Hall param Hin) as [v' Hv']. rewrite Hval, Hv'. f_equal.
    by eapply by_precedence_supplied.
Qed.

(** X17. A dependency that is neither registered nor an alias stops the
    build with a [ResolutionError] naming it: once the parameters before it
    are resolved, a parameter with no argument and no default whose
    annotation is free ends the build there, before any call of the factory
    or class. *)
Theorem create_missing_dependency self kw before param after acc w wa fuel :
  trimmed_params (signature_of E self) = (before ++ param :: after)%list →
  resolve_params (Builder_resolve E (S fuel)) self kw before (kwargs self) w = (wa, Ok acc) →
  supplied self kw param = None →
  ¬ taken (builder wa) (param_annotation param) →
  Context__create E (Builder_resolve E (S fuel)) self kw w
    = (wa, Raise (ResolutionError (param_annotation param))).
Proof.
  intros Hsplit Hbefore Hnone Hfree.
  assert (resolve_param (Builder_resolve E (S fuel)) self kw param wa
          = (wa, Raise (ResolutionError (param_annotation param)))) as Hparam.
  { unfold resolve_param, supplied in *.
    destruct (kw !! param_name param); [discriminate|].
    destruct (kwargs self !! param_name param); [discriminate|].
    rewrite Hnone. by apply resolve_unknown_type_at. }
  assert (resolve_params (Builder_resolve E (S fuel)) self kw
            (before ++ param :: after)%list (kwargs self) w
          = (wa, Raise (ResolutionError (param_annotation param)))) as Hps.
  { rewrite resolve_params_app. unfold bind. rewrite Hbefore.
    by rewrite resolve_params_cons, Hparam. }
  unfold Context__create, bind. by rewrite Hsplit, Hps.
Qed.

End Resolution.

(** * Instances that are true *)

Section TrueInstances.

Variable E : Classes.



(** X20. A supplied instance that is true and is not of the registered
    type, or comes with partial arguments or with a factory, makes
    [register] fail with a validation error; the state is left as it was. *)
Theorem true_instance_is_validated cls alias inst fac kw w :
  truth inst = true →
  isinstance E inst DelayedCreation = false →
  is_DelayedCreation inst = false →
  isinstance E inst cls = false ∨ kw ≠ ∅ ∨ is_Some fac →
  ∃ why, register E cls alias inst fac kw w = (w, Raise (ValidationError why)).
Proof. apply register_true_instance_validated. Qed.

End TrueInstances.

(** * The repository of the example *)

Module StoreFacts.

Import Store.

(** X21. [DbItem.from_domain] and [DbItem.to_domain] are inverse to each
    other: an Item stored and read back is the Item, and a row read and
    stored again has the same columns. *)
Theorem domain_round_trip :
  (∀ item, to_domain (from_domain item) = item) ∧
  (∀ row, from_domain (to_domain row) = row).
Proof. split; intros []; reflexivity. Qed.

(** X22. Membership, [get], indexing and deletion agree on one session
    state: a key is in the repository exactly when the query finds a row,
    and then [get] and indexing give that row's Item whatever the default;
    otherwise [get] gives the default, indexing and deletion raise
    [KeyError] with the key, and the session's [delete] is not reached.
    Membership of an Item looks at its UUID alone. *)
Theorem repository_lookup_agrees (query_get : UUID → option DbItem) (key : UUID) :
  (∀ item, Repository__contains__ query_get (inr item)
             = Repository__contains__ query_get (inl (uuid item))) ∧
  match query_get key with
  | Some row =>
      Repository__contains__ query_get (inl key) = true ∧
      (∀ default, Repository_get query_get key default = Some (to_domain row)) ∧
      Repository__getitem__ query_get key = Found (to_domain row) ∧
      Repository__delitem__ query_get key = Found (to_domain row)
  | None =>
      Repository__contains__ query_get (inl key) = false ∧
      (∀ default, Repository_get query_get key default = default) ∧
      Repository__getitem__ query_get key = KeyError key ∧
      Repository__delitem__ query_get key = KeyError key
  end.
Proof.
  split; [reflexivity|].
  unfold Repository__contains__, Repository__delitem__, Repository__getitem__,
    Repository_get.
  destruct (query_get key); repeat split.
Qed.

End StoreFacts.

(** * The model on the test suite

    Cases of [tests/creational/test_builder.py], run on the model. *)

Module Tests.

Import Kitchen.

Example test_resolve_type_with_dependency :
  ∃ w, Builder_resolve classes 3 "SaltySpiceMix" ∅ pantry
         = (w, Ok (VObj 3 "SaltySpiceMix" true)) ∧
       trace w = [CallType "Salt" ∅; CallType "Pepper" ∅;
                  CallType "SaltySpiceMix"
                    {["salt" := VObj 1 "Salt" true; "spice" := VObj 2 "Pepper" true]}].
Proof. eexists. split; vm_compute; reflexivity. Qed.

Example test_resolve_type_with_missing_dependency :
  snd (after (register classes "Salt" None VNone None ∅)
        (after (register classes "SaltySpiceMix" None VNone None ∅)
          (Builder_resolve classes 5 "SaltySpiceMix" ∅)) fresh)
    = Raise (ResolutionError "Spice").
Proof. vm_compute. reflexivity. Qed.

Example test_resolve_type_with_default_argument_override :
  ∃ w, after (register classes "Chili" None VNone None ∅)
         (Builder_resolve classes 1 "Chili" {["variety" := VStr "habanero"]}) fresh
         = (w, Ok (VObj 0 "Chili" true)) ∧
       trace w = [CallType "Chili" {["variety" := VStr "habanero"]}].
Proof. eexists. split; vm_compute; reflexivity. Qed.

Example test_resolve_type_with_default_argument :
  ∃ w, after (register classes "Chili" None VNone None ∅)
         (Builder_resolve classes 1 "Chili" ∅) fresh
         = (w, Ok (VObj 0 "Chili" true)) ∧
       trace w = [CallType "Chili" {["variety" := VStr "jalapeno"]}].
Proof. eexists. split; vm_compute; reflexivity. Qed.

Example test_resolve_type_with_instance :
  snd (after (register classes "Spice" None cumin None ∅)
         (Builder_resolve classes 1 "Spice" ∅) (new_world 1))
    = Ok cumin.
Proof. vm_compute. reflexivity. Qed.

Example test_resolve_type_with_alias :
  snd (Builder_resolve classes 2 "Spice" ∅ with_herb) = Ok (VObj 0 "Herb" true).
Proof. vm_compute. reflexivity. Qed.

Example test_register_type_with_lazy_init_instance :
  ∃ w, after (register classes "Spice" None (VType DelayedCreation) (Some spice_factory) ∅)
         (after (Builder_resolve classes 1 "Spice" ∅) (Builder_resolve classes 1 "Spice" ∅))
         fresh
         = (w, Ok (VObj 0 "Spice" true)) ∧
       trace w = [CallFactory "spice_factory" {["name" := VStr "cinnamon"]}].
Proof. eexists. split; vm_compute; reflexivity. Qed.

Example test_register_existing_type :
  snd (register classes "Spice" None VNone None ∅ with_spice)
    = Raise (RegistrationError (TypeAlreadyRegistered "Spice")).
Proof. vm_compute. reflexivity. Qed.

Example test_register_type_that_collides_with_existing_alias :
  snd (register classes "Spice" None VNone None ∅ with_herb)
    = Raise (RegistrationError (TypeRegisteredAsAlias "Spice")).
Proof. vm_compute. reflexivity. Qed.

Example test_register_alias_that_collides_with_existing_type :
  snd (register classes "Herb" (Some "Spice") VNone None ∅ with_spice)
    = Raise (RegistrationError (AliasAlreadyRegistered "Spice")).
Proof. vm_compute. reflexivity. Qed.

Example test_register_type_with_invalid_instance_type :
  snd (register classes "Spice" None (VStr "test") None ∅ fresh)
    = Raise (ValidationError (InstanceNotOfType (VStr "test") "Spice")).
Proof. vm_compute. reflexivity. Qed.

Example test_register_type_with_invalid_alias_type :
  snd (register classes "Herb" (Some "str") VNone None ∅ fresh)
    = Raise (ValidationError (NotASubclass "Herb" "str")).
Proof. vm_compute. reflexivity. Qed.

Example test_register_type_with_invalid_factory :
  snd (register classes "Herb" None VNone (Some spice_factory) ∅ fresh)
    = Raise (ValidationError (ReturnTypeMismatch "Spice" "Herb")).
Proof. vm_compute. reflexivity. Qed.

Example test_register_type_with_factory_and_instance :
  snd (register classes "Spice" None cumin (Some spice_factory) ∅ (new_world 1))
    = Raise (ValidationError InstanceWithFactory).
Proof. vm_compute. reflexivity. Qed.

Example test_register_type_with_kwargs_instance :
  snd (register classes "Herb" None (VObj 0 "Herb" true) None
         {["name" := VStr "cumin"]} (new_world 1))
    = Raise (ValidationError InstanceWithKwargs).
Proof. vm_compute. reflexivity. Qed.

End Tests.

(** * The code at the inputs it gets wrong *)

Module Findings.

Import Kitchen.

(** ** A supplied instance that is false *)

(** C4. [builder.register(Spice, instance="")]: the empty string is not a
    Spice, and the registration succeeds; [builder.register(Basket,
    instance=basket, factory=make_basket, x=1)] with an empty basket
    succeeds with an instance, a factory and partial arguments together.
    The guard of [_validate_instance] reads the truth value of the
    instance. *)
Theorem false_instance_not_validated :
  isinstance classes (VStr "") "Spice" = false ∧
  snd (register classes "Spice" None (VStr "") None ∅ fresh) = Ok tt ∧
  snd (register classes "Basket" None empty_basket (Some make_basket)
         {["x" := VInt 1]} (new_world 1)) = Ok tt.
Proof. vm_compute. done. Qed.

(** C3. [builder.register(Basket, instance=basket)] with an empty basket,
    then [builder.resolve(Basket)]: every call instantiates [Basket] again
    and returns the new object, not [basket]. *)
Theorem false_instance_not_returned :
  register classes "Basket" None empty_basket None ∅ (new_world 1)
    = (with_empty_basket, Ok tt) ∧
  ∀ fuel kw, ∃ w' r,
    Builder_resolve classes (S fuel) "Basket" kw with_empty_basket = (w', r) ∧
    r ≠ Ok empty_basket ∧
    if clashes kw then r = Raise TypeError
    else r = Ok (VObj 1 "Basket" false) ∧ trace w' = [CallType "Basket" ∅].
Proof.
  split; [vm_compute; reflexivity|].
  intros fuel kw.
  rewrite (Builder_resolve_at classes fuel "Basket" "Basket")
    by (vm_compute; reflexivity).
  unfold call_method. destruct (clashes kw); eexists _, _.
  - split; [vm_compute; reflexivity|]. done.
  - split; [vm_compute; reflexivity|]. done.
Qed.

(** C9. [Context.resolve] on a Context whose stored instance is the empty
    basket: the stored object is passed over and the class is instantiated,
    whatever the call arguments; the same holds of an empty basket that an
    earlier deferred build has stored, where the factory is called again. *)
Theorem false_stored_instance_rebuilt :
  (∀ br slot kw w,
     Context_resolve classes br slot (basket_context empty_basket None) kw w =
       call_type classes "Basket" ∅ w) ∧
  (∀ br slot kw w,
     Context_resolve classes br slot (basket_context empty_basket (Some make_basket)) kw w =
       call_factory make_basket ∅ w) ∧
  snd (call_type classes "Basket" ∅ (new_world 1)) = Ok (VObj 1 "Basket" false) ∧
  snd (call_factory make_basket ∅ (new_world 1)) = Ok (VObj 1 "Basket" false).
Proof. repeat split; intros; vm_compute; reflexivity. Qed.

(** C2. [builder.register(Basket, instance=DelayedCreation,
    factory=make_basket)] where [make_basket] returns an empty basket: the
    first [resolve] runs the factory twice and returns the second basket,
    each later [resolve] runs it once more and returns one more new basket. *)
Theorem false_deferred_result_rebuilt :
  register classes "Basket" None (VType DelayedCreation) (Some make_basket) ∅ fresh
    = (with_deferred_basket, Ok tt) ∧
  ∃ w1 w2 out1 out2,
    (∀ fuel, Builder_resolve classes (S fuel) "Basket" ∅ with_deferred_basket
               = (w1, Ok out1)) ∧
    (∀ fuel, Builder_resolve classes (S fuel) "Basket" ∅ w1 = (w2, Ok out2)) ∧
    factory_calls "make_basket" (trace w1) = 2 ∧
    factory_calls "make_basket" (trace w2) = 3 ∧
    out1 = VObj 1 "Basket" false ∧ out2 = VObj 2 "Basket" false ∧ out1 ≠ out2.
Proof.
  split; [vm_compute; reflexivity|].
  eexists _, _, _, _.
  split; [intros fuel; vm_compute; reflexivity|].
  split; [intros fuel; vm_compute; reflexivity|].
  repeat split; try (vm_compute; reflexivity). discriminate.
Qed.

(** ** A type registered as its own alias *)

(** C7. [builder.register(Spice, alias=Spice)] succeeds, and in the state it
    leaves [_resolve_alias(Spice)] calls itself without end: no depth of
    stack lets it return, and [builder.resolve(Spice)] ends in the
    interpreter's [RecursionError]. *)
Theorem self_alias_never_resolves :
  register classes "Spice" (Some "Spice") VNone None ∅ fresh = (self_aliased, Ok tt) ∧
  reachable_ok classes self_aliased ∧
  (∀ fuel, _resolve_alias fuel (builder self_aliased) "Spice" = None) ∧
  (∀ fuel kw,
     Builder_resolve classes fuel "Spice" kw self_aliased
       = (self_aliased, Raise RecursionError)).
Proof.
  assert (register classes "Spice" (Some "Spice") VNone None ∅ fresh
            = (self_aliased, Ok tt)) as Hreg by (vm_compute; reflexivity).
  assert (_aliases (builder self_aliased) !! "Spice" = Some "Spice") as Hself
    by (vm_compute; reflexivity).
  split; [exact Hreg|].
  split; [eapply reach_ok_register; [by apply (reach_ok_new _ fresh) | exact Hreg]|].
  split; [intros fuel; by apply self_alias_loops|].
  intros [|fuel] kw; [reflexivity|].
  rewrite Builder_resolve_S.
  by rewrite (self_alias_loops _ _ (S fuel) Hself).
Qed.

(** C10. In the state left by [builder.register(Spice, alias=Spice)] the
    alias [Spice] is stored with a value that is a key of the registration
    map, and yet alias resolution of that alias returns no key at all. *)
Theorem self_alias_leads_nowhere :
  reachable classes self_aliased ∧
  _aliases (builder self_aliased) !! "Spice" = Some "Spice" ∧
  is_Some (_registrations (builder self_aliased) !! "Spice") ∧
  ¬ ∃ fuel k, _resolve_alias fuel (builder self_aliased) "Spice" = Some k.
Proof.
  assert (_aliases (builder self_aliased) !! "Spice" = Some "Spice") as Hself
    by (vm_compute; reflexivity).
  split; [apply reach_register; by apply reach_new|].
  split; [done|].
  split; [vm_compute; eauto|].
  intros (fuel & k & Hk). by rewrite self_alias_loops in Hk.
Qed.

(** ** A key that does not hash *)

(** C8, as stated, at [[] in builder] on a new Builder (and the same for a
    class whose metaclass leaves it without [__hash__]): the lookup in
    [_registrations] hashes the key and the test raises [TypeError]; it
    returns no answer. *)
Lemma unhashable_key_raises :
  Builder__contains__key Unhashable fresh = (fresh, Raise TypeError) ∧
  ¬ ∃ r : bool, snd (Builder__contains__key Unhashable fresh) = Ok r.
Proof.
  split; [reflexivity|]. intros [r Hr]. discriminate.
Qed.

(** ** Validation comes before the registry checks *)

(** C5, as stated, at [builder.register(Spice)] followed by
    [builder.register(Spice, instance="test")]: the type key is taken, and
    the second call fails with the validation error of the Context, not with
    a [RegistrationError]. *)
Lemma taken_key_fails_validation_first :
  taken (builder with_spice) "Spice" ∧
  register classes "Spice" None (VStr "test") None ∅ with_spice
    = (with_spice, Raise (ValidationError (InstanceNotOfType (VStr "test") "Spice"))) ∧
  ¬ ∃ why, snd (register classes "Spice" None (VStr "test") None ∅ with_spice)
             = Raise (RegistrationError why).
Proof.
  assert (register classes "Spice" None (VStr "test") None ∅ with_spice
    = (with_spice, Raise (ValidationError (InstanceNotOfType (VStr "test") "Spice"))))
    as Hrun by (vm_compute; reflexivity).
  split; [left; vm_compute; eauto|].
  split; [exact Hrun|].
  intros [why Hwhy]. rewrite Hrun in Hwhy. discriminate.
Qed.

End Findings.

(** * The theorems at inputs of the test suite *)

Module Witnesses.

Import Kitchen.


(** [builder.resolve(Spice)] after [builder.register(Herb, alias=Spice,
    name="cumin")]. *)
Lemma Builder_resolve_dispatch_witness :
  alias_root (builder with_herb) "Spice" "Herb" ∧
  (_aliases (builder with_herb) !! "Spice" = None → "Herb" = "Spice") ∧
  ∃ fuel0, ∀ fuel, (fuel0 ≤ fuel)%nat →
    Builder_resolve classes (S fuel) "Spice" ∅ with_herb =
      match _registrations (builder with_herb) !! "Herb" with
      | None => (with_herb, Raise (ResolutionError "Spice"))
      | Some context =>
          call_method ∅
            (Context_resolve classes (Builder_resolve classes fuel) "Herb" context)
            with_herb
      end.
Proof.
  assert (alias_root (builder with_herb) "Spice" "Herb") as Hroot.
  { eapply root_next; [vm_compute; reflexivity|].
    apply root_here. vm_compute. reflexivity. }
  split; [exact Hroot|].
  exact (Builder_resolve_dispatch classes with_herb "Spice" "Herb" ∅ Hroot).
Defined.

(** [builder.register(Salt, alias=Spice)] after [builder.register(Herb,
    alias=Spice, name="cumin")]: the alias is taken. *)
Lemma register_all_or_nothing_witness :
  taken (builder with_herb) "Spice" ∧
  ∃ e, register classes "Salt" (Some "Spice") VNone None ∅ with_herb
         = (with_herb, Raise e) ∧
       ∃ why, e = RegistrationError why.
Proof.
  assert (taken (builder with_herb) "Spice") as Htaken.
  { right. vm_compute. eauto. }
  split; [exact Htaken|].
  destruct (register_all_or_nothing classes "Salt" (Some "Spice") VNone None ∅ with_herb)
    as [_ Hfail].
  destruct Hfail as (e & Hrun & Hkind).
  { right. exists "Spice". split; [reflexivity | exact Htaken]. }
  exists e. split; [exact Hrun|].
  vm_compute in Hkind. exact Hkind.
Defined.

End Witnesses.

(** * The further properties at inputs of the test suite *)

Module MoreWitnesses.

Import Kitchen.

Ltac run := vm_compute; reflexivity.

Ltac not_taken :=
  let H := fresh in intros [[? H]|[? H]]; vm_compute in H; discriminate.

Lemma spice_alias_of_herb : _aliases (builder with_herb) !! "Spice" = Some "Herb".
Proof. run. Defined.

Lemma with_herb_live : live classes with_herb.
Proof. apply live_register. by apply live_new. Defined.

Lemma register_then_contains_witness :
  register classes "Herb" (Some "Spice") VNone None {["name" := VStr "cumin"]} fresh
    = (with_herb, Ok tt) ∧
  Builder__contains__ "Spice" fresh = (fresh, Ok false) ∧
  Builder__contains__ "Spice" with_herb
    = (with_herb,
       Ok (false || bool_decide ("Spice" = "Herb") || bool_decide (Some "Spice" = Some "Spice"))).
Proof.
  assert (register classes "Herb" (Some "Spice") VNone None {["name" := VStr "cumin"]} fresh
            = (with_herb, Ok tt)) as Hreg by run.
  assert (Builder__contains__ "Spice" fresh = (fresh, Ok false)) as Hin by run.
  split; [exact Hreg|]. split; [exact Hin|].
  exact (register_then_contains classes _ _ _ _ _ _ _ _ _ Hreg Hin).
Defined.

Lemma membership_never_lost_witness :
  Builder__contains__ "Spice" with_herb = (with_herb, Ok true) ∧
  (∀ cls alias inst fac kw,
     snd (Builder__contains__ "Spice"
            (fst (register classes cls alias inst fac kw with_herb))) = Ok true) ∧
  (∀ fuel cls kw,
     snd (Builder__contains__ "Spice"
            (fst (Builder_resolve classes fuel cls kw with_herb))) = Ok true).
Proof.
  assert (Builder__contains__ "Spice" with_herb = (with_herb, Ok true)) as Hin by run.
  split; [exact Hin|].
  exact (membership_never_lost classes "Spice" with_herb Hin).
Defined.

Lemma resolve_unknown_type_witness :
  ¬ taken (builder fresh) "Salt" ∧
  Builder_resolve classes 1 "Salt" ∅ fresh = (fresh, Raise (ResolutionError "Salt")).
Proof.
  assert (¬ taken (builder fresh) "Salt") as Hfree by not_taken.
  split; [exact Hfree|].
  exact (resolve_unknown_type classes "Salt" ∅ fresh 0 Hfree).
Defined.

Lemma resolve_alias_as_type_witness :
  live classes with_herb ∧
  _aliases (builder with_herb) !! "Spice" = Some "Herb" ∧
  "Spice" ≠ "Herb" ∧
  Builder_resolve classes 2 "Spice" ∅ with_herb
    = Builder_resolve classes 2 "Herb" ∅ with_herb.
Proof.
  assert ("Spice" ≠ "Herb") as Hne by discriminate.
  split; [exact with_herb_live|]. split; [exact spice_alias_of_herb|].
  split; [exact Hne|].
  exact (resolve_alias_as_type classes "Spice" "Herb" ∅ with_herb 0
           with_herb_live spice_alias_of_herb Hne).
Defined.

Lemma register_alias_not_supertype_witness :
  issubclass classes "Herb" "str" = false ∧
  ∃ why, register classes "Herb" (Some "str") VNone None ∅ fresh
           = (fresh, Raise (ValidationError why)).
Proof.
  assert (issubclass classes "Herb" "str" = false) as Hsub by run.
  split; [exact Hsub|].
  exact (register_alias_not_supertype classes "Herb" "str" VNone None ∅ fresh Hsub).
Defined.

Lemma register_factory_wrong_return_witness :
  return_annotation spice_factory ≠ "Herb" ∧
  ∃ why, register classes "Herb" None VNone (Some spice_factory) ∅ fresh
           = (fresh, Raise (ValidationError why)).
Proof.
  assert (return_annotation spice_factory ≠ "Herb") as Hret by discriminate.
  split; [exact Hret|].
  exact (register_factory_wrong_return classes "Herb" None VNone spice_factory ∅ fresh Hret).
Defined.

Lemma register_DelayedCreation_instance_witness :
  isinstance classes (VObj 0 DelayedCreation true) DelayedCreation = true ∧
  register classes "Spice" None (VObj 0 DelayedCreation true) (Some spice_factory) ∅
    (new_world 1)
  = register classes "Spice" None (VType DelayedCreation) (Some spice_factory) ∅
      (new_world 1).
Proof.
  assert (isinstance classes (VObj 0 DelayedCreation true) DelayedCreation = true)
    as Hd by run.
  split; [exact Hd|].
  exact (register_DelayedCreation_instance classes "Spice" None _ (Some spice_factory)
           ∅ (new_world 1) Hd).
Defined.

Lemma live_aliases_registered_witness :
  live classes with_herb ∧
  _aliases (builder with_herb) !! "Spice" = Some "Herb" ∧
  is_Some (_registrations (builder with_herb) !! "Herb") ∧
  (is_Some (_registrations (builder with_herb) !! "Spice") → "Herb" = "Spice").
Proof.
  split; [exact with_herb_live|]. split; [exact spice_alias_of_herb|].
  exact (live_aliases_registered classes with_herb "Spice" "Herb"
           with_herb_live spice_alias_of_herb).
Defined.

Lemma alias_resolution_two_frames_witness :
  live classes with_herb ∧
  map_Forall (λ a t, a ≠ t) (_aliases (builder with_herb)) ∧
  ∃ k, _resolve_alias 2 (builder with_herb) "Spice" = Some k ∧
       match _aliases (builder with_herb) !! "Spice" with
       | None => k = "Spice"
       | Some t => k = t ∧ is_Some (_registrations (builder with_herb) !! k)
       end.
Proof.
  assert (map_Forall (λ a t : string, a ≠ t) (_aliases (builder with_herb))) as Hnoself.
  { apply (bool_decide_unpack _). vm_compute. exact I. }
  split; [exact with_herb_live|]. split; [exact Hnoself|].
  exact (alias_resolution_two_frames classes with_herb "Spice" with_herb_live Hnoself).
Defined.

Lemma register_self_alias_unresolvable_witness :
  issubclass classes "Spice" "Spice" = true ∧
  ¬ taken (builder fresh) "Spice" ∧
  ∃ w', register classes "Spice" (Some "Spice") VNone None ∅ fresh = (w', Ok tt) ∧
        ∀ fuel kw, Builder_resolve classes fuel "Spice" kw w' = (w', Raise RecursionError).
Proof.
  assert (issubclass classes "Spice" "Spice" = true) as Hrefl by run.
  assert (¬ taken (builder fresh) "Spice") as Hfree by not_taken.
  split; [exact Hrefl|]. split; [exact Hfree|].
  exact (register_self_alias_unresolvable classes "Spice" fresh Hrefl Hfree).
Defined.


Lemma no_spice_live : live classes no_spice.
Proof. apply live_register, live_register. by apply live_new. Defined.

Lemma ResolutionError_names_free_type_witness :
  live classes no_spice ∧
  snd (Builder_resolve classes 3 "SaltySpiceMix" ∅ no_spice)
    = Raise (ResolutionError "Spice") ∧
  ¬ taken (builder no_spice) "Spice".
Proof.
  assert (snd (Builder_resolve classes 3 "SaltySpiceMix" ∅ no_spice)
            = Raise (ResolutionError "Spice")) as Hrun by run.
  split; [exact no_spice_live|]. split; [exact Hrun|].
  exact (ResolutionError_names_free_type classes 3 "SaltySpiceMix" ∅ no_spice "Spice"
           no_spice_live Hrun).
Defined.

Lemma create_passes_registration_kwargs_witness :
  ∃ w' out,
    Context__create classes (Builder_resolve classes 1) herb_context
      {["colour" := VStr "green"]} with_herb = (w', Ok out) ∧
    ∃ resolved w1,
      invoke classes herb_context resolved w1 = (w', Ok out) ∧
      ∀ key, key ∉ param_name <$> trimmed_params (signature_of classes herb_context) →
             resolved !! key = kwargs herb_context !! key.
Proof.
  eexists _, _. split; [run|].
  apply (create_passes_registration_kwargs classes (Builder_resolve classes 1) herb_context
           {["colour" := VStr "green"]} with_herb). run.
Defined.

Lemma create_supplied_calls_once_witness :
  NoDup (param_name <$> signature_of classes chili_context) ∧
  (∀ param, param ∈ trimmed_params (signature_of classes chili_context) →
            is_Some (supplied chili_context ∅ param)) ∧
  ∃ resolved,
    Context__create classes (Builder_resolve classes 0) chili_context ∅ fresh
      = invoke classes chili_context resolved fresh ∧
    ∀ param, param ∈ trimmed_params (signature_of classes chili_context) →
             resolved !! param_name param = supplied chili_context ∅ param.
Proof.
  assert (NoDup (param_name <$> signature_of classes chili_context)) as Hnd.
  { apply (bool_decide_unpack _). vm_compute. exact I. }
  assert (∀ param, param ∈ trimmed_params (signature_of classes chili_context) →
                   is_Some (supplied chili_context ∅ param)) as Hall.
  { intros param Hin.
    change (trimmed_params (signature_of classes chili_context))
      with [P "variety" "str" (Some (VStr "jalapeno"))] in Hin.
    apply list_elem_of_singleton in Hin as ->. vm_compute. eauto. }
  split; [exact Hnd|]. split; [exact Hall|].
  exact (create_supplied_calls_once classes (Builder_resolve classes 0) chili_context ∅
           fresh Hnd Hall).
Defined.

Lemma create_missing_dependency_witness :
  trimmed_params (signature_of classes mix_context)
    = ([P "salt" "Salt" None] ++ P "spice" "Spice" None :: [])%list ∧
  supplied mix_context ∅ (P "spice" "Spice" None) = None ∧
  ∃ wa acc,
    resolve_params (Builder_resolve classes 1) mix_context ∅ [P "salt" "Salt" None]
      (kwargs mix_context) no_spice = (wa, Ok acc) ∧
    ¬ taken (builder wa) (param_annotation (P "spice" "Spice" None)) ∧
    Context__create classes (Builder_resolve classes 1) mix_context ∅ no_spice
      = (wa, Raise (ResolutionError (param_annotation (P "spice" "Spice" None)))).
Proof.
  assert (trimmed_params (signature_of classes mix_context)
    = ([P "salt" "Salt" None] ++ P "spice" "Spice" None :: [])%list) as Hsplit by run.
  split; [exact Hsplit|]. split; [reflexivity|].
  eexists _, _. split; [run|].
  match goal with |- ¬ taken (builder ?wa) ?t ∧ _ =>
    assert (¬ taken (builder wa) t) as Hfree by not_taken end.
  split; [exact Hfree|].
  eapply (create_missing_dependency classes mix_context ∅ [P "salt" "Salt" None]
            (P "spice" "Spice" None) [] _ no_spice _ 0 Hsplit); [run | reflexivity | exact Hfree].
Defined.



Lemma true_instance_is_validated_witness :
  truth (VStr "test") = true ∧
  isinstance classes (VStr "test") DelayedCreation = false ∧
  is_DelayedCreation (VStr "test") = false ∧
  (isinstance classes (VStr "test") "Spice" = false ∨ (∅ : dict) ≠ ∅ ∨ is_Some (@None Callable)) ∧
  ∃ why, register classes "Spice" None (VStr "test") None ∅ fresh
           = (fresh, Raise (ValidationError why)).
Proof.
  assert (isinstance classes (VStr "test") DelayedCreation = false) as Hd by run.
  assert (isinstance classes (VStr "test") "Spice" = false ∨ (∅ : dict) ≠ ∅
          ∨ is_Some (@None Callable)) as Hbad by (left; run).
  split; [reflexivity|]. split; [exact Hd|]. split; [reflexivity|]. split; [exact Hbad|].
  exact (true_instance_is_validated classes "Spice" None (VStr "test") None ∅ fresh
           eq_refl Hd eq_refl Hbad).
Defined.

End MoreWitnesses.
